(** * kindred-costs: shared-expense ledger

    A shallow embedding of the ledger store declared in
    [supabase/migrations/20250729071003-...sql] (tables, constraints,
    row-level security policies and the [generate_apartment_code] function)
    and of the client routines that talk to it: [fetchApartments] and the
    create dialog ([src/pages/Dashboard.tsx]) and the join dialog
    ([src/components/JoinApartmentDialog.tsx]).

    The store is given twice.
    - [exec] reads every policy as the condition it states.  It accepts
      every statement the database accepts, and more: its invariants are
      invariants of the database.
    - [Postgres.exec] adds what PostgreSQL does before it evaluates a
      policy: it expands the policies of every table the statement and its
      policies name, and stops with error 42P17 when a table comes up
      inside its own policy, as [apartment_members] does.  What a client
      is answered, and what it brings about, is stated on this one.

    Conventions.
    - [UUID] columns are numbers, timestamps and dates are numbers.
    - [DECIMAL(10,2)] columns hold an integer count of minor units (cents);
      the column type admits exactly the counts of magnitude below [10^10].
    - [TEXT] is a [string] of bytes (UTF-8).  A JavaScript string is the
      list of its code points ([JS.str]); white space is the set
      [String.prototype.trim] strips, and the case table of the engine is
      a parameter of the routines that use it.
    - a JavaScript [number] and a [double precision] value of the server
      are binary64 floats ([PrimFloat]).
    - [RANDOM()] is an oracle, a sequence of draws from [0,1).
    - the [profiles] table and its trigger take no part in the ledger and
      are left out. *)

From Stdlib Require Import List Bool Arith ZArith NArith Lia.
From Stdlib Require Import Ascii String DecimalString QArith Qround Floats.
Import ListNotations.

Local Open Scope Z_scope.
Local Open Scope bool_scope.
Local Open Scope list_scope.

(* ================================================================== *)
(** ** Column types *)

Definition uuid := N.
Definition timestamptz := N.
Definition date := N.

(** Minor units held by a [DECIMAL(10,2)] column. *)
Definition cents := Z.

Definition decimal_10_2 (c : cents) : bool := Z.abs c <? 10 ^ 10.

(** [auth.uid()]: the requester's identity, [None] for an anonymous
    request.  A comparison with SQL NULL is not true. *)
Definition uid_is (me : option uuid) (x : uuid) : bool :=
  match me with
  | Some u => N.eqb u x
  | None => false
  end.

Definition mem_uuid (x : uuid) (l : list uuid) : bool := existsb (N.eqb x) l.

(** No two elements of [l] are equal under [eqb] (PRIMARY KEY, UNIQUE). *)
Fixpoint uniqueb {A : Type} (eqb : A -> A -> bool) (l : list A) : bool :=
  match l with
  | [] => true
  | x :: t => negb (existsb (eqb x) t) && uniqueb eqb t
  end.

Definition pair_eqb (p q : uuid * uuid) : bool :=
  N.eqb (fst p) (fst q) && N.eqb (snd p) (snd q).

(* ================================================================== *)
(** ** Tables *)

Record Apartment := {
  apt_id : uuid;
  apt_name : string;
  apt_code : string;
  apt_created_by : uuid;
  apt_created_at : timestamptz;
  apt_updated_at : timestamptz
}.

Record Member := {
  mem_id : uuid;
  mem_apartment_id : uuid;
  mem_user_id : uuid;
  mem_joined_at : timestamptz
}.

Record Expense := {
  exp_id : uuid;
  exp_apartment_id : uuid;
  exp_title : string;
  exp_amount : cents;
  exp_paid_by : uuid;
  exp_date : date;
  exp_created_by : uuid;
  exp_created_at : timestamptz;
  exp_updated_at : timestamptz
}.

Record Split := {
  spl_id : uuid;
  spl_expense_id : uuid;
  spl_user_id : uuid;
  spl_amount : cents
}.

Record Settlement := {
  stl_id : uuid;
  stl_apartment_id : uuid;
  stl_from_user : uuid;
  stl_to_user : uuid;
  stl_amount : cents;
  stl_note : option string;
  stl_created_at : timestamptz
}.

(** The ledger store; [auth_users] is the id column of [auth.users], which
    the foreign keys point to and which grows when a user signs up. *)
Record Store := {
  auth_users : list uuid;
  apartments : list Apartment;
  apartment_members : list Member;
  expenses : list Expense;
  expense_splits : list Split;
  settlements : list Settlement
}.

Definition empty_store : Store :=
  {| auth_users := []; apartments := []; apartment_members := [];
     expenses := []; expense_splits := []; settlements := [] |}.

(* ------------------------------------------------------------------ *)
(** *** Table constraints *)

Definition apartments_ok (s : Store) : bool :=
  uniqueb N.eqb (map apt_id (apartments s))
  && uniqueb String.eqb (map apt_code (apartments s))
  && forallb (fun a => mem_uuid (apt_created_by a) (auth_users s))
       (apartments s).

Definition apartment_members_ok (s : Store) : bool :=
  uniqueb N.eqb (map mem_id (apartment_members s))
  && uniqueb pair_eqb
       (map (fun m => (mem_apartment_id m, mem_user_id m))
          (apartment_members s))
  && forallb
       (fun m =>
          mem_uuid (mem_apartment_id m) (map apt_id (apartments s))
          && mem_uuid (mem_user_id m) (auth_users s))
       (apartment_members s).

Definition expenses_ok (s : Store) : bool :=
  uniqueb N.eqb (map exp_id (expenses s))
  && forallb
       (fun e =>
          mem_uuid (exp_apartment_id e) (map apt_id (apartments s))
          && decimal_10_2 (exp_amount e)
          && (0 <? exp_amount e)
          && mem_uuid (exp_paid_by e) (auth_users s)
          && mem_uuid (exp_created_by e) (auth_users s))
       (expenses s).

Definition expense_splits_ok (s : Store) : bool :=
  uniqueb N.eqb (map spl_id (expense_splits s))
  && uniqueb pair_eqb
       (map (fun p => (spl_expense_id p, spl_user_id p)) (expense_splits s))
  && forallb
       (fun p =>
          mem_uuid (spl_expense_id p) (map exp_id (expenses s))
          && mem_uuid (spl_user_id p) (auth_users s)
          && decimal_10_2 (spl_amount p)
          && (0 <=? spl_amount p))
       (expense_splits s).

Definition settlements_ok (s : Store) : bool :=
  uniqueb N.eqb (map stl_id (settlements s))
  && forallb
       (fun t =>
          mem_uuid (stl_apartment_id t) (map apt_id (apartments s))
          && mem_uuid (stl_from_user t) (auth_users s)
          && mem_uuid (stl_to_user t) (auth_users s)
          && decimal_10_2 (stl_amount t)
          && (0 <? stl_amount t))
       (settlements s).

(** Every declared constraint holds: primary keys, UNIQUE, CHECK, the
    foreign keys and the range of the decimal columns. *)
Definition store_ok (s : Store) : bool :=
  apartments_ok s && apartment_members_ok s && expenses_ok s
  && expense_splits_ok s && settlements_ok s.

(* ================================================================== *)
(** ** Row-level security *)

Inductive Cmd := SELECT | INSERT | UPDATE | DELETE | ALL.

Definition Cmd_eqb (a b : Cmd) : bool :=
  match a, b with
  | SELECT, SELECT | INSERT, INSERT | UPDATE, UPDATE
  | DELETE, DELETE | ALL, ALL => true
  | _, _ => false
  end.

(** [CREATE POLICY name ON table FOR cmd USING (..) WITH CHECK (..)]. *)
Record Policy (R : Type) := {
  pol_name : string;
  pol_cmd : Cmd;
  pol_using : option (Store -> option uuid -> R -> bool);
  pol_check : option (Store -> option uuid -> R -> bool)
}.
Arguments pol_name {R}.
Arguments pol_cmd {R}.
Arguments pol_using {R}.
Arguments pol_check {R}.

(** [SELECT apartment_id FROM apartment_members WHERE user_id = auth.uid()],
    the subquery every membership policy uses, as the condition it states:
    the apartments the requester has a membership row in.  The SELECT
    policy of [apartment_members] is phrased with this very subquery on
    its own table; the answer PostgreSQL gives to a statement that has to
    evaluate it is in [Postgres] below. *)
Definition my_apartments (s : Store) (me : option uuid) : list uuid :=
  map mem_apartment_id
    (filter (fun m => uid_is me (mem_user_id m)) (apartment_members s)).

Definition in_my_apartments (s : Store) (me : option uuid) (a : uuid) : bool :=
  mem_uuid a (my_apartments s me).

Definition apartments_policies : list (Policy Apartment) :=
  [ {| pol_name := "Users can view apartments they are members of";
       pol_cmd := SELECT;
       pol_using := Some (fun s me r => in_my_apartments s me (apt_id r));
       pol_check := None |};
    {| pol_name := "Users can create apartments";
       pol_cmd := INSERT;
       pol_using := None;
       pol_check := Some (fun _ me r => uid_is me (apt_created_by r)) |};
    {| pol_name := "Apartment creators can update their apartments";
       pol_cmd := UPDATE;
       pol_using := Some (fun _ me r => uid_is me (apt_created_by r));
       pol_check := None |} ].

Definition apartment_members_policies : list (Policy Member) :=
  [ {| pol_name := "Users can view members of their apartments";
       pol_cmd := SELECT;
       pol_using :=
         Some (fun s me r => in_my_apartments s me (mem_apartment_id r));
       pol_check := None |};
    {| pol_name := "Users can join apartments";
       pol_cmd := INSERT;
       pol_using := None;
       pol_check := Some (fun _ me r => uid_is me (mem_user_id r)) |};
    {| pol_name := "Users can leave apartments";
       pol_cmd := DELETE;
       pol_using := Some (fun _ me r => uid_is me (mem_user_id r));
       pol_check := None |} ].

Definition expenses_policies : list (Policy Expense) :=
  [ {| pol_name := "Users can view expenses in their apartments";
       pol_cmd := SELECT;
       pol_using :=
         Some (fun s me r => in_my_apartments s me (exp_apartment_id r));
       pol_check := None |};
    {| pol_name := "Apartment members can create expenses";
       pol_cmd := INSERT;
       pol_using := None;
       pol_check :=
         Some (fun s me r =>
                 uid_is me (exp_created_by r)
                 && in_my_apartments s me (exp_apartment_id r)) |};
    {| pol_name := "Expense creators can update their expenses";
       pol_cmd := UPDATE;
       pol_using := Some (fun _ me r => uid_is me (exp_created_by r));
       pol_check := None |};
    {| pol_name := "Expense creators can delete their expenses";
       pol_cmd := DELETE;
       pol_using := Some (fun _ me r => uid_is me (exp_created_by r));
       pol_check := None |} ].

Definition expense_splits_policies : list (Policy Split) :=
  [ {| pol_name := "Users can view splits for expenses in their apartments";
       pol_cmd := SELECT;
       pol_using :=
         Some (fun s me r =>
                 mem_uuid (spl_expense_id r)
                   (map exp_id
                      (filter
                         (fun e => in_my_apartments s me (exp_apartment_id e))
                         (expenses s))));
       pol_check := None |};
    {| pol_name := "Users can manage splits for their created expenses";
       pol_cmd := ALL;
       pol_using :=
         Some (fun s me r =>
                 mem_uuid (spl_expense_id r)
                   (map exp_id
                      (filter (fun e => uid_is me (exp_created_by e))
                         (expenses s))));
       pol_check := None |} ].

Definition settlements_policies : list (Policy Settlement) :=
  [ {| pol_name := "Users can view settlements in their apartments";
       pol_cmd := SELECT;
       pol_using :=
         Some (fun s me r => in_my_apartments s me (stl_apartment_id r));
       pol_check := None |};
    {| pol_name := "Users can create settlements in their apartments";
       pol_cmd := INSERT;
       pol_using := None;
       pol_check :=
         Some (fun s me r =>
                 uid_is me (stl_from_user r)
                 && in_my_apartments s me (stl_apartment_id r)) |} ].

(** A policy declared [FOR c] governs command [target]. *)
Definition applies (c target : Cmd) : bool :=
  match c with
  | ALL => true
  | _ => Cmd_eqb c target
  end.

Section RowSecurity.
Context {R : Type} (ps : list (Policy R)) (s : Store) (me : option uuid).

(** Existing row [r] is within reach of [target]: some permissive policy
    for the command passes its USING.  With no policy for the command
    nothing passes (row security is enabled on every table). *)
Definition rls_using (target : Cmd) (r : R) : bool :=
  existsb
    (fun p =>
       applies (pol_cmd p) target
       && match pol_using p with
          | Some f => f s me r
          | None => true
          end)
    ps.

(** New row [r] is acceptable for [target]: WITH CHECK, which defaults
    to the policy's USING. *)
Definition rls_check (target : Cmd) (r : R) : bool :=
  existsb
    (fun p =>
       applies (pol_cmd p) target
       && match pol_check p with
          | Some f => f s me r
          | None =>
              match pol_using p with
              | Some f => f s me r
              | None => true
              end
          end)
    ps.

(** [SELECT .. WHERE cond]. *)
Definition select_rows (cond : R -> bool) (rows : list R) : list R :=
  filter (fun r => cond r && rls_using SELECT r) rows.

(** [INSERT]: a row that fails the check aborts the statement. *)
Definition insert_row (r : R) (rows : list R) : option (list R) :=
  if rls_check INSERT r then Some (rows ++ [r]) else None.

(** [UPDATE .. SET .. WHERE cond]: rows out of reach are silently left
    alone; a rewritten row ([trigger] is the table's BEFORE UPDATE
    trigger) that fails the check aborts the statement. *)
Definition update_rows (trigger : R -> R) (cond : R -> bool)
    (set : R -> R) (rows : list R) : option (list R) :=
  let hit r := cond r && rls_using UPDATE r in
  if forallb (fun r => negb (hit r) || rls_check UPDATE (trigger (set r)))
       rows
  then Some (map (fun r => if hit r then trigger (set r) else r) rows)
  else None.

(** The rows [DELETE .. WHERE cond] removes. *)
Definition delete_hits (cond : R -> bool) (r : R) : bool :=
  cond r && rls_using DELETE r.

Definition delete_rows (cond : R -> bool) (rows : list R) : list R :=
  filter (fun r => negb (delete_hits cond r)) rows.
End RowSecurity.

(* ================================================================== *)
(** ** Client requests *)

(** [update_updated_at_column], fired BEFORE UPDATE on [apartments] and
    [expenses]. *)
Definition apartments_touch (now : timestamptz) (r : Apartment) : Apartment :=
  {| apt_id := apt_id r; apt_name := apt_name r; apt_code := apt_code r;
     apt_created_by := apt_created_by r; apt_created_at := apt_created_at r;
     apt_updated_at := now |}.

Definition expenses_touch (now : timestamptz) (r : Expense) : Expense :=
  {| exp_id := exp_id r; exp_apartment_id := exp_apartment_id r;
     exp_title := exp_title r; exp_amount := exp_amount r;
     exp_paid_by := exp_paid_by r; exp_date := exp_date r;
     exp_created_by := exp_created_by r; exp_created_at := exp_created_at r;
     exp_updated_at := now |}.

Definition set_auth_users (s : Store) (l : list uuid) : Store :=
  {| auth_users := l; apartments := apartments s;
     apartment_members := apartment_members s; expenses := expenses s;
     expense_splits := expense_splits s; settlements := settlements s |}.

Definition set_apartments (s : Store) (l : list Apartment) : Store :=
  {| auth_users := auth_users s; apartments := l;
     apartment_members := apartment_members s; expenses := expenses s;
     expense_splits := expense_splits s; settlements := settlements s |}.

Definition set_apartment_members (s : Store) (l : list Member) : Store :=
  {| auth_users := auth_users s; apartments := apartments s;
     apartment_members := l; expenses := expenses s;
     expense_splits := expense_splits s; settlements := settlements s |}.

Definition set_expenses (s : Store) (l : list Expense) : Store :=
  {| auth_users := auth_users s; apartments := apartments s;
     apartment_members := apartment_members s; expenses := l;
     expense_splits := expense_splits s; settlements := settlements s |}.

Definition set_expense_splits (s : Store) (l : list Split) : Store :=
  {| auth_users := auth_users s; apartments := apartments s;
     apartment_members := apartment_members s; expenses := expenses s;
     expense_splits := l; settlements := settlements s |}.

Definition set_settlements (s : Store) (l : list Settlement) : Store :=
  {| auth_users := auth_users s; apartments := apartments s;
     apartment_members := apartment_members s; expenses := expenses s;
     expense_splits := expense_splits s; settlements := l |}.

(** [ON DELETE CASCADE] from [expenses] to [expense_splits]. *)
Definition cascade_expenses (gone : list uuid) (s : Store) : Store :=
  set_expense_splits s
    (filter (fun p => negb (mem_uuid (spl_expense_id p) gone))
       (expense_splits s)).

(** [ON DELETE CASCADE] from [apartments] to [apartment_members],
    [expenses] (and on to their splits) and [settlements]. *)
Definition cascade_apartments (gone : list uuid) (s : Store) : Store :=
  let dead_expenses :=
    map exp_id
      (filter (fun e => mem_uuid (exp_apartment_id e) gone) (expenses s)) in
  cascade_expenses dead_expenses
    {| auth_users := auth_users s;
       apartments := apartments s;
       apartment_members :=
         filter (fun m => negb (mem_uuid (mem_apartment_id m) gone))
           (apartment_members s);
       expenses :=
         filter (fun e => negb (mem_uuid (exp_apartment_id e) gone))
           (expenses s);
       expense_splits := expense_splits s;
       settlements :=
         filter (fun t => negb (mem_uuid (stl_apartment_id t) gone))
           (settlements s) |}.

(** The writes a client can send: signing up, which adds a row to
    [auth.users], or one statement on one table.  An INSERT carries the
    whole row (defaults such as [gen_random_uuid()] and [now()] are values
    the row may take); UPDATE and DELETE carry their WHERE condition,
    UPDATE also its SET.  The condition is any predicate on rows, so it
    also covers the narrowing of an UPDATE or DELETE to the rows the
    requester may SELECT. *)
Inductive Command :=
| SignUp (u : uuid)
| InsertApartment (r : Apartment)
| UpdateApartment (cond : Apartment -> bool) (set : Apartment -> Apartment)
| DeleteApartment (cond : Apartment -> bool)
| InsertMember (r : Member)
| UpdateMember (cond : Member -> bool) (set : Member -> Member)
| DeleteMember (cond : Member -> bool)
| InsertExpense (r : Expense)
| UpdateExpense (cond : Expense -> bool) (set : Expense -> Expense)
| DeleteExpense (cond : Expense -> bool)
| InsertSplit (r : Split)
| UpdateSplit (cond : Split -> bool) (set : Split -> Split)
| DeleteSplit (cond : Split -> bool)
| InsertSettlement (r : Settlement)
| UpdateSettlement (cond : Settlement -> bool) (set : Settlement -> Settlement)
| DeleteSettlement (cond : Settlement -> bool).

Record Request := {
  req_uid : option uuid;
  req_now : timestamptz;
  req_cmd : Command
}.

Inductive Response := Done | PolicyViolation | ConstraintViolation.

(** A statement takes effect only if the resulting tables satisfy every
    constraint; otherwise it is rolled back. *)
Definition commit (s s' : Store) : Store * Response :=
  if store_ok s' then (s', Done) else (s, ConstraintViolation).

Definition attempt {R : Type} (s : Store) (put : Store -> list R -> Store)
    (rows : option (list R)) : Store * Response :=
  match rows with
  | Some l => commit s (put s l)
  | None => (s, PolicyViolation)
  end.

Definition exec (q : Request) (s : Store) : Store * Response :=
  let me := req_uid q in
  let now := req_now q in
  match req_cmd q with
  | SignUp u =>
      if mem_uuid u (auth_users s) then (s, ConstraintViolation)
      else commit s (set_auth_users s (auth_users s ++ [u]))
  | InsertApartment r =>
      attempt s set_apartments
        (insert_row apartments_policies s me r (apartments s))
  | UpdateApartment cond set =>
      attempt s set_apartments
        (update_rows apartments_policies s me (apartments_touch now)
           cond set (apartments s))
  | DeleteApartment cond =>
      let gone :=
        map apt_id
          (filter (delete_hits apartments_policies s me cond)
             (apartments s)) in
      commit s
        (cascade_apartments gone
           (set_apartments s
              (delete_rows apartments_policies s me cond (apartments s))))
  | InsertMember r =>
      attempt s set_apartment_members
        (insert_row apartment_members_policies s me r (apartment_members s))
  | UpdateMember cond set =>
      attempt s set_apartment_members
        (update_rows apartment_members_policies s me (fun r => r)
           cond set (apartment_members s))
  | DeleteMember cond =>
      commit s
        (set_apartment_members s
           (delete_rows apartment_members_policies s me cond
              (apartment_members s)))
  | InsertExpense r =>
      attempt s set_expenses
        (insert_row expenses_policies s me r (expenses s))
  | UpdateExpense cond set =>
      attempt s set_expenses
        (update_rows expenses_policies s me (expenses_touch now)
           cond set (expenses s))
  | DeleteExpense cond =>
      let gone :=
        map exp_id
          (filter (delete_hits expenses_policies s me cond) (expenses s)) in
      commit s
        (cascade_expenses gone
           (set_expenses s
              (delete_rows expenses_policies s me cond (expenses s))))
  | InsertSplit r =>
      attempt s set_expense_splits
        (insert_row expense_splits_policies s me r (expense_splits s))
  | UpdateSplit cond set =>
      attempt s set_expense_splits
        (update_rows expense_splits_policies s me (fun r => r)
           cond set (expense_splits s))
  | DeleteSplit cond =>
      commit s
        (set_expense_splits s
           (delete_rows expense_splits_policies s me cond
              (expense_splits s)))
  | InsertSettlement r =>
      attempt s set_settlements
        (insert_row settlements_policies s me r (settlements s))
  | UpdateSettlement cond set =>
      attempt s set_settlements
        (update_rows settlements_policies s me (fun r => r)
           cond set (settlements s))
  | DeleteSettlement cond =>
      commit s
        (set_settlements s
           (delete_rows settlements_policies s me cond (settlements s)))
  end.

(** The store after a sequence of client requests, oldest first. *)
Fixpoint run (s : Store) (qs : list Request) : Store :=
  match qs with
  | [] => s
  | q :: rest => run (fst (exec q s)) rest
  end.

(* ================================================================== *)
(** ** The statements as PostgreSQL runs them

    Row security is applied by the query rewriter.  The policies of the
    table a statement names are added to the statement; the tables their
    subqueries name get their SELECT policies added in turn, and so on.
    A table that comes up again while its own policies are being expanded
    stops the statement with error 42P17, [infinite recursion detected in
    policy for relation], before a row is read or written. *)

Module Postgres.

Inductive Table :=
| apartments_tbl
| apartment_members_tbl
| expenses_tbl
| expense_splits_tbl
| settlements_tbl.

Definition Table_eqb (a b : Table) : bool :=
  match a, b with
  | apartments_tbl, apartments_tbl
  | apartment_members_tbl, apartment_members_tbl
  | expenses_tbl, expenses_tbl
  | expense_splits_tbl, expense_splits_tbl
  | settlements_tbl, settlements_tbl => true
  | _, _ => false
  end.

(** One line per CREATE POLICY of the migration, in its order: the table,
    the command, and the tables the policy's expression selects from. *)
Definition policy_reads : list (Table * Cmd * list Table) :=
  [ (apartments_tbl, SELECT, [apartment_members_tbl]);
    (apartments_tbl, INSERT, []);
    (apartments_tbl, UPDATE, []);
    (apartment_members_tbl, SELECT, [apartment_members_tbl]);
    (apartment_members_tbl, INSERT, []);
    (apartment_members_tbl, DELETE, []);
    (expenses_tbl, SELECT, [apartment_members_tbl]);
    (expenses_tbl, INSERT, [apartment_members_tbl]);
    (expenses_tbl, UPDATE, []);
    (expenses_tbl, DELETE, []);
    (expense_splits_tbl, SELECT, [expenses_tbl; apartment_members_tbl]);
    (expense_splits_tbl, ALL, [expenses_tbl]);
    (settlements_tbl, SELECT, [apartment_members_tbl]);
    (settlements_tbl, INSERT, [apartment_members_tbl]) ].

(** The tables named by the policies that govern command [c] on [t]. *)
Definition policy_subqueries (t : Table) (c : Cmd) : list Table :=
  flat_map
    (fun p =>
       match p with
       | (t', c', reads) =>
           if Table_eqb t t' && applies c' c then reads else []
       end)
    policy_reads.

(** The policies a statement of command [c] on [t] brings in.  A statement
    that reads columns of the table (a WHERE clause, a RETURNING list)
    needs the right to SELECT, and with it the SELECT policies. *)
Definition applied (t : Table) (c : Cmd) (reads : bool) : list Table :=
  policy_subqueries t c
  ++ (if reads && negb (Cmd_eqb c SELECT) then policy_subqueries t SELECT
      else []).

(** Expanding the subqueries [subs] added to [t], with the tables in
    [active] being expanded further out.  No table can be open twice, so
    no chain is longer than the number of tables. *)
Fixpoint expands (fuel : nat) (active : list Table) (t : Table)
    (subs : list Table) {struct fuel} : bool :=
  match fuel with
  | O => false
  | S fuel' =>
      negb (existsb (Table_eqb t) active)
      && forallb
           (fun u => expands fuel' (t :: active) u (policy_subqueries u SELECT))
           subs
  end.

(** The statement is stopped with 42P17. *)
Definition raises (t : Table) (c : Cmd) (reads : bool) : bool :=
  negb (expands 6 [] t (applied t c reads)).

Inductive Reply :=
| Answered (r : Response)
| InfiniteRecursion.

(** The table and the command of a statement; signing up is no statement
    on the ledger. *)
Definition target (c : Command) : option (Table * Cmd) :=
  match c with
  | SignUp _ => None
  | InsertApartment _ => Some (apartments_tbl, INSERT)
  | UpdateApartment _ _ => Some (apartments_tbl, UPDATE)
  | DeleteApartment _ => Some (apartments_tbl, DELETE)
  | InsertMember _ => Some (apartment_members_tbl, INSERT)
  | UpdateMember _ _ => Some (apartment_members_tbl, UPDATE)
  | DeleteMember _ => Some (apartment_members_tbl, DELETE)
  | InsertExpense _ => Some (expenses_tbl, INSERT)
  | UpdateExpense _ _ => Some (expenses_tbl, UPDATE)
  | DeleteExpense _ => Some (expenses_tbl, DELETE)
  | InsertSplit _ => Some (expense_splits_tbl, INSERT)
  | UpdateSplit _ _ => Some (expense_splits_tbl, UPDATE)
  | DeleteSplit _ => Some (expense_splits_tbl, DELETE)
  | InsertSettlement _ => Some (settlements_tbl, INSERT)
  | UpdateSettlement _ _ => Some (settlements_tbl, UPDATE)
  | DeleteSettlement _ => Some (settlements_tbl, DELETE)
  end.

Section Conditions.
Context (reads : bool) (s : Store) (me : option uuid).

(** The rows an UPDATE or DELETE looks at: all of them when it has no
    WHERE clause, else those that meet the condition and that the
    requester may SELECT. *)
Definition looks_at {R : Type} (ps : list (Policy R)) (cond : R -> bool)
    (r : R) : bool :=
  if reads then cond r && rls_using ps s me SELECT r else true.

Definition narrowed (c : Command) : Command :=
  match c with
  | UpdateApartment cond set =>
      UpdateApartment (looks_at apartments_policies cond) set
  | DeleteApartment cond =>
      DeleteApartment (looks_at apartments_policies cond)
  | UpdateMember cond set =>
      UpdateMember (looks_at apartment_members_policies cond) set
  | DeleteMember cond =>
      DeleteMember (looks_at apartment_members_policies cond)
  | UpdateExpense cond set =>
      UpdateExpense (looks_at expenses_policies cond) set
  | DeleteExpense cond =>
      DeleteExpense (looks_at expenses_policies cond)
  | UpdateSplit cond set =>
      UpdateSplit (looks_at expense_splits_policies cond) set
  | DeleteSplit cond =>
      DeleteSplit (looks_at expense_splits_policies cond)
  | UpdateSettlement cond set =>
      UpdateSettlement (looks_at settlements_policies cond) set
  | DeleteSettlement cond =>
      DeleteSettlement (looks_at settlements_policies cond)
  | other => other
  end.

(** [INSERT .. RETURNING], which [.insert(..).select()] sends: the new row
    has to pass the SELECT policies as well. *)
Definition returned_row_visible (c : Command) : bool :=
  negb reads
  || match c with
     | InsertApartment r => rls_using apartments_policies s me SELECT r
     | InsertMember r => rls_using apartment_members_policies s me SELECT r
     | InsertExpense r => rls_using expenses_policies s me SELECT r
     | InsertSplit r => rls_using expense_splits_policies s me SELECT r
     | InsertSettlement r => rls_using settlements_policies s me SELECT r
     | _ => true
     end.
End Conditions.

Definition answered (r : Store * Response) : Store * Reply :=
  (fst r, Answered (snd r)).

(** One client statement.  [reads] says that the statement reads columns
    of its table: it has a WHERE clause or a RETURNING list (or its SET
    list uses the old values).  A statement that is stopped changes
    nothing. *)
Definition exec (reads : bool) (q : Request) (s : Store) : Store * Reply :=
  match target (req_cmd q) with
  | None => answered (exec q s)
  | Some (t, c) =>
      if raises t c reads then (s, InfiniteRecursion)
      else if returned_row_visible reads s (req_uid q) (req_cmd q) then
        answered
          (exec {| req_uid := req_uid q; req_now := req_now q;
                   req_cmd := narrowed reads s (req_uid q) (req_cmd q) |} s)
      else (s, Answered PolicyViolation)
  end.

(** [SELECT .. FROM t, .. WHERE cond] for the tables [from] the query
    names (embedded resources included): the rows, or the error. *)
Definition select {R : Type} (from : list Table) (ps : list (Policy R))
    (s : Store) (me : option uuid) (cond : R -> bool) (rows : list R)
    : option (list R) :=
  if existsb (fun t => raises t SELECT true) from then None
  else Some (select_rows ps s me cond rows).

(** The store after a sequence of statements, oldest first. *)
Fixpoint run (s : Store) (qs : list (bool * Request)) : Store :=
  match qs with
  | [] => s
  | (reads, q) :: rest => run (fst (exec reads q s)) rest
  end.

End Postgres.

(* ================================================================== *)
(** ** Text and numbers of the SQL function and of the client *)

Definition code_of (c : ascii) : N := N_of_ascii c.

Definition is_lower (c : ascii) : bool :=
  let n := code_of c in ((97 <=? n) && (n <=? 122))%N.

Definition is_upper (c : ascii) : bool :=
  let n := code_of c in ((65 <=? n) && (n <=? 90))%N.

Definition is_digit (c : ascii) : bool :=
  let n := code_of c in ((48 <=? n) && (n <=? 57))%N.

Definition upper_char (c : ascii) : ascii :=
  if is_lower c then ascii_of_N (code_of c - 32) else c.

(** Upper-casing of text whose letters are ASCII, which is all that SQL
    [UPPER] is given by [generate_apartment_code]: letters from [CHR] of
    65 to 90 and decimal digits. *)
Fixpoint toUpperCase (s : string) : string :=
  match s with
  | EmptyString => EmptyString
  | String c t => String (upper_char c) (toUpperCase t)
  end.

Definition UPPER : string -> string := toUpperCase.

(** JavaScript truthiness of a number: neither zero nor NaN. *)
Definition truthy (x : float) : bool :=
  negb (PrimFloat.is_zero x || PrimFloat.is_nan x).

(** [x || 0] on numbers. *)
Definition or_zero (x : float) : float := if truthy x then x else 0%float.

(** [Number(amount)] for a [DECIMAL(10,2)] value of [c] cents: the binary64
    number nearest to [c / 100].  Both [c] (below [2^53]) and [100] are
    exact and the division is correctly rounded. *)
Definition Number (c : cents) : float :=
  let magnitude :=
    PrimFloat.div (PrimFloat.of_uint63 (Uint63.of_Z (Z.abs c)))
      (PrimFloat.of_uint63 (Uint63.of_Z 100)) in
  if c <? 0 then PrimFloat.opp magnitude else magnitude.

(** The cast [::INT] of a double: to the nearest integer, ties to even. *)
Definition to_INT (q : Q) : Z :=
  let f := Qfloor q in
  match Qcompare (q - inject_Z f) (1 # 2) with
  | Lt => f
  | Gt => f + 1
  | Eq => if Z.even f then f else f + 1
  end.

(** [CHR(n)], a one-character text. *)
Definition CHR (n : Z) : string :=
  String (ascii_of_N (Z.to_N n)) EmptyString.

(** An integer on the right of [||]: its decimal text. *)
Definition int_text (n : Z) : string :=
  DecimalString.NilZero.string_of_int (Z.to_int n).


(* ================================================================== *)
(** ** [generate_apartment_code] *)

(** How PL/pgSQL resolves a name that is both a variable of the function
    and a column of the query ([plpgsql.variable_conflict]); the function
    sets none, the server default is [error]. *)
Inductive variable_conflict := error | use_variable | use_column.

(** One pass of the loop body's assignment, drawing from position [k] of
    the oracle. *)
Definition candidate_code (rnd : nat -> Q) (k : nat) : string :=
  UPPER
    (CHR (65 + to_INT (rnd k * 25))
     ++ CHR (65 + to_INT (rnd (k + 1)%nat * 25))
     ++ int_text (to_INT (rnd (k + 2)%nat * 9))
     ++ int_text (to_INT (rnd (k + 3)%nat * 9))
     ++ CHR (65 + to_INT (rnd (k + 4)%nat * 25))
     ++ int_text (to_INT (rnd (k + 5)%nat * 9)))%string.

(** [SELECT EXISTS(SELECT 1 FROM public.apartments WHERE code = code)],
    over the rows [rows] of [apartments] the query reads.  Both sides of
    the comparison carry the same name, a variable of the function and a
    column of the table: the statement is rejected ([None]), or compares
    the variable with itself, or the column with itself. *)
Definition code_exists (vc : variable_conflict) (rows : list Apartment)
    (code : string) : option bool :=
  match vc with
  | error => None
  | use_variable => Some (existsb (fun _ => String.eqb code code) rows)
  | use_column =>
      Some (existsb (fun r => String.eqb (apt_code r) (apt_code r)) rows)
  end.

Inductive Generated :=
| Returned (code : string)
| Raised
| StillLooping.

(** The function body, run for at most [fuel] passes of its LOOP. *)
Fixpoint generate_apartment_code (vc : variable_conflict)
    (rows : list Apartment) (rnd : nat -> Q) (k : nat) (fuel : nat)
    : Generated :=
  match fuel with
  | O => StillLooping
  | S fuel' =>
      let code := candidate_code rnd k in
      match code_exists vc rows code with
      | None => Raised
      | Some true => generate_apartment_code vc rows rnd (k + 6) fuel'
      | Some false => Returned code
      end
  end.

(** Letter, letter, digit, digit, letter, digit. *)
Definition code_format (code : string) : bool :=
  match list_ascii_of_string code with
  | [a; b; c; d; e; f] =>
      is_upper a && is_upper b && is_digit c && is_digit d
      && is_upper e && is_digit f
  | _ => false
  end.

(* ------------------------------------------------------------------ *)
(** *** The arithmetic of the server

    [RANDOM()] returns a double, and [RANDOM() * 25] is the product
    rounded to a double before [::INT] rounds it to an integer. *)

(** The exact value of a finite double. *)
Definition float_Q (x : float) : Q :=
  match Prim2SF x with
  | S754_finite sign m e =>
      ((if sign then - (1) else 1) * inject_Z (Zpos m) * Qpower 2 e)%Q
  | _ => 0%Q
  end.

(** [(draw * n)::INT]. *)
Definition scaled (draw : float) (n : Z) : Z :=
  to_INT (float_Q (PrimFloat.mul draw (PrimFloat.of_uint63 (Uint63.of_Z n)))).

(** A value [RANDOM()] can return. *)
Definition unit_draw (x : float) : bool :=
  PrimFloat.leb 0%float x && PrimFloat.ltb x 1%float.

(** The assignment of the loop body on the doubles drawn from position
    [k] on. *)
Definition candidate_code_binary64 (rnd : nat -> float) (k : nat) : string :=
  UPPER
    (CHR (65 + scaled (rnd k) 25)
     ++ CHR (65 + scaled (rnd (k + 1)%nat) 25)
     ++ int_text (scaled (rnd (k + 2)%nat) 9)
     ++ int_text (scaled (rnd (k + 3)%nat) 9)
     ++ CHR (65 + scaled (rnd (k + 4)%nat) 25)
     ++ int_text (scaled (rnd (k + 5)%nat) 9))%string.

(* ================================================================== *)
(** ** JavaScript strings *)

Module JS.
Local Open Scope N_scope.

(** A string, as the list of its code points. *)
Definition str := list N.

(** WhiteSpace and LineTerminator of ECMAScript, the code points
    [String.prototype.trim] strips: TAB, LF, VT, FF, CR, the space,
    U+00A0, U+1680, U+2000 to U+200A, U+2028, U+2029, U+202F, U+205F,
    U+3000 and U+FEFF. *)
Definition is_white_space (c : N) : bool :=
  ((9 <=? c) && (c <=? 13))
  || (c =? 32) || (c =? 160) || (c =? 5760)
  || ((8192 <=? c) && (c <=? 8202))
  || (c =? 8232) || (c =? 8233) || (c =? 8239) || (c =? 8287)
  || (c =? 12288) || (c =? 65279).

Fixpoint trimStart (s : str) : str :=
  match s with
  | [] => []
  | c :: t => if is_white_space c then trimStart t else s
  end.

Fixpoint trimEnd (s : str) : str :=
  match s with
  | [] => []
  | c :: t =>
      match trimEnd t with
      | [] => if is_white_space c then [] else [c]
      | t' => c :: t'
      end
  end.

(** [String.prototype.trim]. *)
Definition trim (s : str) : str := trimEnd (trimStart s).

(** Truthiness of a string: non-empty. *)
Definition truthy (s : str) : bool :=
  match s with
  | [] => false
  | _ :: _ => true
  end.

(** [String.prototype.toUpperCase] maps each code point on its own, by
    the table [upper_of] of the engine; an entry can be several code
    points long (U+00DF gives [SS]). *)
Definition toUpperCase (upper_of : N -> list N) (s : str) : str :=
  flat_map upper_of s.

(** What the routines below rely on in a case table: white space is not
    cased, a cased code point does not turn into white space or into
    nothing, and an upper-cased code point is upper case. *)
Record case_table (upper_of : N -> list N) : Prop := {
  space_kept :
    forall c, is_white_space c = true -> upper_of c = [c];
  ink_kept :
    forall c, is_white_space c = false ->
      upper_of c <> []
      /\ forallb (fun d => negb (is_white_space d)) (upper_of c) = true;
  upper_is_upper :
    forall c, flat_map upper_of (upper_of c) = upper_of c
}.

(** The table on the code points below 256 (Basic Latin and Latin-1):
    [a] to [z] and U+00E0 to U+00FE but U+00F7 move down by 32, U+00B5
    gives U+039C, U+00DF gives [SS], U+00FF gives U+0178.  Code points
    from 256 on are left alone here. *)
Definition latin1_upper (c : N) : list N :=
  if c <? 256 then
    if ((97 <=? c) && (c <=? 122))
       || ((224 <=? c) && (c <=? 254) && negb (c =? 247))
    then [c - 32]
    else if c =? 181 then [924]
    else if c =? 223 then [83; 83]
    else if c =? 255 then [376]
    else [c]
  else [c].

(** UTF-8, the encoding in which the string reaches a [TEXT] column; a
    surrogate that stands alone is sent as U+FFFD. *)
Definition utf8 (c : N) : list ascii :=
  if c <? 128 then [ascii_of_N c]
  else if (55296 <=? c) && (c <=? 57343) then
    [ascii_of_N 239; ascii_of_N 191; ascii_of_N 189]
  else if c <? 2048 then
    [ascii_of_N (192 + c / 64); ascii_of_N (128 + c mod 64)]
  else if c <? 65536 then
    [ascii_of_N (224 + c / 4096); ascii_of_N (128 + (c / 64) mod 64);
     ascii_of_N (128 + c mod 64)]
  else
    [ascii_of_N (240 + c / 262144); ascii_of_N (128 + (c / 4096) mod 64);
     ascii_of_N (128 + (c / 64) mod 64); ascii_of_N (128 + c mod 64)].

Definition text (s : str) : string :=
  string_of_list_ascii (flat_map utf8 s).

(** The string a literal of ASCII characters denotes. *)
Definition of_string (s : string) : str :=
  map N_of_ascii (list_ascii_of_string s).

End JS.

(* ================================================================== *)
(** ** [src/pages/Dashboard.tsx] *)

Module Dashboard.

(** [interface Apartment]: one card of the dashboard. *)
Record Apartment := {
  id : uuid;
  name : string;
  code : string;
  created_at : timestamptz;
  member_count : nat;
  total_expenses : float;
  user_balance : float
}.

(** [expenses?.reduce((sum, exp) => sum + Number(exp.amount), 0) || 0]. *)
Definition totalExpenses (amounts : list cents) : float :=
  or_zero
    (fold_left (fun sum amount => PrimFloat.add sum (Number amount))
       amounts 0%float).

(** [const userBalance = 0; // TODO: Calculate actual balance]. *)
Definition userBalance : float := 0%float.

(** The body of [data.map(async (item) => ...)] for the joined
    apartment row [item], its two queries answered with the rows their
    policies state. *)
Definition card (s : Store) (user : option uuid) item : Apartment :=
  let apartmentId := apt_id item in
  let memberCount :=
    List.length
      (select_rows apartment_members_policies s user
         (fun m => N.eqb (mem_apartment_id m) apartmentId)
         (apartment_members s)) in
  let expenses :=
    map exp_amount
      (select_rows expenses_policies s user
         (fun e => N.eqb (exp_apartment_id e) apartmentId)
         (expenses s)) in
  {| id := apartmentId;
     name := apt_name item;
     code := apt_code item;
     created_at := apt_created_at item;
     member_count := memberCount;
     total_expenses := totalExpenses expenses;
     user_balance := userBalance |}.

(** The [try] block of [fetchApartments] when its queries are answered:
    the cards handed to [setApartments].  The first query reads the
    requester's membership rows, inner-joined with the apartment each
    points to.  This is the arithmetic and the layout of the cards; what
    the page shows on the database as migrated is [DashboardPage]. *)
Definition fetchApartments (s : Store) (user : option uuid)
    : list Apartment :=
  let data :=
    flat_map
      (fun m =>
         select_rows apartments_policies s user
           (fun a => N.eqb (apt_id a) (mem_apartment_id m))
           (apartments s))
      (select_rows apartment_members_policies s user
         (fun m => uid_is user (mem_user_id m))
         (apartment_members s)) in
  map (card s user) data.

(** The balance the dashboard of member [u] shows for apartment [a]. *)
Definition shown_balance (s : Store) (a u : uuid) : option float :=
  option_map user_balance
    (find (fun c => N.eqb (id c) a) (fetchApartments s (Some u))).

(** The total the dashboard of member [u] shows for apartment [a]. *)
Definition shown_total (s : Store) (a u : uuid) : option float :=
  option_map total_expenses
    (find (fun c => N.eqb (id c) a) (fetchApartments s (Some u))).

End Dashboard.

(** The page of [Dashboard.tsx] with its state, its queries sent to the
    database. *)
Module DashboardPage.

(** The state [apartments] and [loading], and the toasts raised so far. *)
Record State := {
  st_apartments : list Dashboard.Apartment;
  st_loading : bool;
  st_toasts : list string
}.

(** [useState([])], [useState(true)]. *)
Definition initial : State :=
  {| st_apartments := []; st_loading := true; st_toasts := [] |}.

(** The first query: [apartment_members] with [apartments!inner]
    embedded, [.eq('user_id', user?.id)]. *)
Definition memberships (s : Store) (user : option uuid)
    : option (list Apartment) :=
  match
    Postgres.select
      [Postgres.apartment_members_tbl; Postgres.apartments_tbl]
      apartment_members_policies s user
      (fun m => uid_is user (mem_user_id m)) (apartment_members s)
  with
  | Some rows =>
      Some
        (flat_map
           (fun m =>
              select_rows apartments_policies s user
                (fun a => N.eqb (apt_id a) (mem_apartment_id m))
                (apartments s))
           rows)
  | None => None
  end.

(** One card.  The errors of its two queries are not looked at:
    [memberCount || 0], and [expenses?.reduce(..) || 0]. *)
Definition card (s : Store) (user : option uuid) (item : Apartment)
    : Dashboard.Apartment :=
  let apartmentId := apt_id item in
  let memberCount :=
    match
      Postgres.select [Postgres.apartment_members_tbl]
        apartment_members_policies s user
        (fun m => N.eqb (mem_apartment_id m) apartmentId)
        (apartment_members s)
    with
    | Some rows => List.length rows
    | None => O
    end in
  let totalExpenses :=
    match
      Postgres.select [Postgres.expenses_tbl] expenses_policies s user
        (fun e => N.eqb (exp_apartment_id e) apartmentId) (expenses s)
    with
    | Some rows => Dashboard.totalExpenses (map exp_amount rows)
    | None => 0%float
    end in
  {| Dashboard.id := apartmentId;
     Dashboard.name := apt_name item;
     Dashboard.code := apt_code item;
     Dashboard.created_at := apt_created_at item;
     Dashboard.member_count := memberCount;
     Dashboard.total_expenses := totalExpenses;
     Dashboard.user_balance := Dashboard.userBalance |}.

(** [fetchApartments]: [setApartments] is reached only if the first query
    gave no error; the [catch] raises the toast; [finally] ends the
    loading. *)
Definition fetchApartments (s : Store) (user : option uuid) (st : State)
    : State :=
  match memberships s user with
  | Some data =>
      {| st_apartments := map (card s user) data;
         st_loading := false;
         st_toasts := st_toasts st |}
  | None =>
      {| st_apartments := st_apartments st;
         st_loading := false;
         st_toasts := st_toasts st ++ ["Failed to load apartments"%string] |}
  end.

(** [useEffect(() => { if (user) fetchApartments() }, [user])]. *)
Definition mount (s : Store) (user : option uuid) : State :=
  match user with
  | Some _ => fetchApartments s user initial
  | None => initial
  end.

(** What the page renders. *)
Inductive View :=
| LoadingYourApartments
| NoApartmentsYet
| Cards (cards : list Dashboard.Apartment).

Definition render (st : State) : View :=
  if st_loading st then LoadingYourApartments
  else
    match st_apartments st with
    | [] => NoApartmentsYet
    | cards => Cards cards
    end.

End DashboardPage.

(* ================================================================== *)
(** ** [src/components/JoinApartmentDialog.tsx] *)

Module JoinApartmentDialog.

(** What [handleSubmit] leaves the user with.
    - [Ignored]: the guard on line 24 returned;
    - [NotFound]: [Apartment not found. Please check the code and try
      again.];
    - [AlreadyMember]: [You are already a member of this apartment.];
    - [BackendError]: the insert was refused ([memberError]);
    - [Joined n]: [You have successfully joined n]. *)
Inductive Outcome :=
| Ignored
| NotFound
| AlreadyMember
| BackendError
| Joined (apartment_name : string).

(** [.single()]: exactly one row, anything else is an error. *)
Definition single {R : Type} (rows : option (list R)) : option R :=
  match rows with
  | Some [r] => Some r
  | _ => None
  end.

Section Engine.
Variable upper_of : N -> list N.

(** [onChange={(e) => setApartmentCode(e.target.value.toUpperCase())}]. *)
Definition onChange (value : JS.str) : JS.str :=
  JS.toUpperCase upper_of value.

(** The value [.eq('code', ...)] is given. *)
Definition lookup_key (apartmentCode : JS.str) : JS.str :=
  JS.toUpperCase upper_of (JS.trim apartmentCode).

(** [code = key], the WHERE clause of the first query. *)
Definition code_is (key : JS.str) (a : Apartment) : bool :=
  String.eqb (apt_code a) (JS.text key).

(** The first query: [data] of the apartment the entered code resolves
    to, or [apartmentError]. *)
Definition find_apartment (s : Store) (user : option uuid)
    (apartmentCode : JS.str) : option Apartment :=
  single
    (Postgres.select [Postgres.apartments_tbl] apartments_policies s user
       (code_is (lookup_key apartmentCode)) (apartments s)).

(** The second query: the requester's membership row in [apartment];
    its error is not looked at. *)
Definition find_membership (s : Store) (uid : uuid) (apartment : uuid)
    : option Member :=
  single
    (Postgres.select [Postgres.apartment_members_tbl]
       apartment_members_policies s (Some uid)
       (fun m =>
          N.eqb (mem_apartment_id m) apartment
          && N.eqb (mem_user_id m) uid)
       (apartment_members s)).

(** [handleSubmit].  [new_id] and [now] are the values the defaults
    [gen_random_uuid()] and [now()] take for the inserted row. *)
Definition handleSubmit (user : option uuid) (apartmentCode : JS.str)
    (new_id : uuid) (now : timestamptz) (s : Store) : Store * Outcome :=
  match user with
  | None => (s, Ignored)
  | Some uid =>
      if negb (JS.truthy (JS.trim apartmentCode)) then (s, Ignored)
      else
        match find_apartment s user apartmentCode with
        | None => (s, NotFound)
        | Some apartment =>
            match find_membership s uid (apt_id apartment) with
            | Some _ => (s, AlreadyMember)
            | None =>
                let row :=
                  {| mem_id := new_id;
                     mem_apartment_id := apt_id apartment;
                     mem_user_id := uid;
                     mem_joined_at := now |} in
                match
                  Postgres.exec false
                    {| req_uid := user; req_now := now;
                       req_cmd := InsertMember row |} s
                with
                | (s', Postgres.Answered Done) =>
                    (s', Joined (apt_name apartment))
                | (_, _) => (s, BackendError)
                end
            end
        end
  end.
End Engine.

End JoinApartmentDialog.

(* ================================================================== *)
(** ** [CreateApartmentDialog] (in [src/pages/Dashboard.tsx], from line 241) *)

Module CreateApartmentDialog.

(** What [handleSubmit] leaves the user with.
    - [Ignored]: the guard on line 263 returned;
    - [CodeError]: the call of [generate_apartment_code] raised;
    - [Pending]: the call has not returned yet;
    - [ApartmentError]: the insert into [apartments] was refused;
    - [MemberError]: the insert into [apartment_members] was refused;
    - [Created n c]: [n has been created with code: c]. *)
Inductive Outcome :=
| Ignored
| CodeError
| Pending
| ApartmentError
| MemberError
| Created (apartmentName code : string).

(** [supabase.rpc('generate_apartment_code')], run for at most [fuel]
    passes of the loop.  The function is not SECURITY DEFINER: its query
    on [apartments] runs with the rights of the caller, row security
    included, and an error of the query is an error of the call. *)
Definition rpc_generate_apartment_code (vc : variable_conflict)
    (rnd : nat -> Q) (fuel : nat) (s : Store) (user : option uuid)
    : Generated :=
  match
    Postgres.select [Postgres.apartments_tbl] apartments_policies s user
      (fun _ => true) (apartments s)
  with
  | Some rows => generate_apartment_code vc rows rnd 0 fuel
  | None =>
      match fuel with
      | O => StillLooping
      | S _ => Raised
      end
  end.

(** [handleSubmit].  [apartment_id], [member_id] and [now] are the values
    the column defaults take for the two inserted rows. *)
Definition handleSubmit (vc : variable_conflict) (rnd : nat -> Q)
    (fuel : nat) (user : option uuid) (apartmentName : JS.str)
    (apartment_id member_id : uuid) (now : timestamptz) (s : Store)
    : Store * Outcome :=
  match user with
  | None => (s, Ignored)
  | Some uid =>
      if negb (JS.truthy (JS.trim apartmentName)) then (s, Ignored)
      else
        match rpc_generate_apartment_code vc rnd fuel s user with
        | Raised => (s, CodeError)
        | StillLooping => (s, Pending)
        | Returned codeData =>
            let apartment :=
              {| apt_id := apartment_id;
                 apt_name := JS.text (JS.trim apartmentName);
                 apt_code := codeData;
                 apt_created_by := uid;
                 apt_created_at := now;
                 apt_updated_at := now |} in
            match
              Postgres.exec true
                {| req_uid := user; req_now := now;
                   req_cmd := InsertApartment apartment |} s
            with
            | (s1, Postgres.Answered Done) =>
                let row :=
                  {| mem_id := member_id;
                     mem_apartment_id := apt_id apartment;
                     mem_user_id := uid;
                     mem_joined_at := now |} in
                match
                  Postgres.exec false
                    {| req_uid := user; req_now := now;
                       req_cmd := InsertMember row |} s1
                with
                | (s2, Postgres.Answered Done) =>
                    (s2, Created (JS.text apartmentName) codeData)
                | (_, _) => (s1, MemberError)
                end
            | (_, _) => (s, ApartmentError)
            end
        end
  end.

End CreateApartmentDialog.

(* ================================================================== *)
(** ** The Balance Engine of the specification

    The repository holds no balance computation (the dashboard's balance
    is the constant of [Dashboard.userBalance]).  The definitions of this
    module follow section 4.1 of the specification instead, reading the
    rows of one apartment from the store. *)

Module BalanceEngine.

Definition zsum (l : list Z) : Z := fold_right Z.add 0 l.

Definition splits_of (s : Store) (e : Expense) : list Split :=
  filter (fun p => N.eqb (spl_expense_id p) (exp_id e)) (expense_splits s).

Definition share_of (u : uuid) (p : Split) : Z :=
  if N.eqb (spl_user_id p) u then spl_amount p else 0.

(** Modelled from the spec: for each expense, credit the payer by the
    full expense amount and debit each split participant by their share
    amount. *)
Definition expense_effect (s : Store) (u : uuid) (e : Expense) : Z :=
  (if N.eqb (exp_paid_by e) u then exp_amount e else 0)
  - zsum (map (share_of u) (splits_of s e)).

(** Modelled from the spec: a settlement moves its amount between
    [from_user] and [to_user] so that the payment reduces what the payer
    owes and reduces what the receiver is owed, which is what scenario B
    requires (after [Y] pays [X] the 50.00 owed, both are at 0.00): the
    balance of [from_user] rises by the amount and that of [to_user]
    falls by it. *)
Definition settlement_effect (u : uuid) (t : Settlement) : Z :=
  (if N.eqb (stl_from_user t) u then stl_amount t else 0)
  - (if N.eqb (stl_to_user t) u then stl_amount t else 0).

Definition expenses_of (s : Store) (a : uuid) : list Expense :=
  filter (fun e => N.eqb (exp_apartment_id e) a) (expenses s).

Definition settlements_of (s : Store) (a : uuid) : list Settlement :=
  filter (fun t => N.eqb (stl_apartment_id t) a) (settlements s).

(** Modelled from the spec: the set of apartment member ids. *)
Definition members_of (s : Store) (a : uuid) : list uuid :=
  map mem_user_id
    (filter (fun m => N.eqb (mem_apartment_id m) a) (apartment_members s)).

(** Modelled from the spec: contributions are summed per member; a member
    with no transactions has balance zero.  In cents. *)
Definition net_balance (s : Store) (a u : uuid) : Z :=
  zsum (map (expense_effect s u) (expenses_of s a))
  + zsum (map (settlement_effect u) (settlements_of s a)).

(** Modelled from the spec: zero net splits imbalance, each expense's
    splits sum exactly to the expense amount. *)
Definition splits_balanced (s : Store) (a : uuid) : bool :=
  forallb
    (fun e => zsum (map spl_amount (splits_of s e)) =? exp_amount e)
    (expenses_of s a).

(** Modelled from the spec: the input is refused ([InvalidInput]) if a
    split references a user id not present in the context, or if an
    amount is negative where positivity is required.  (A split always
    references an expense of the context here: splits are read expense
    by expense.) *)
Definition valid_input (s : Store) (a : uuid) : bool :=
  forallb
    (fun e =>
       (0 <? exp_amount e)
       && forallb
            (fun p =>
               mem_uuid (spl_user_id p) (members_of s a)
               && (0 <=? spl_amount p))
            (splits_of s e))
    (expenses_of s a)
  && forallb (fun t => 0 <? stl_amount t) (settlements_of s a).

(** Modelled from the spec: the output, a mapping from member id to
    signed net balance, or [None] for [InvalidInput]. *)
Definition balances (s : Store) (a : uuid) : option (list (uuid * Z)) :=
  if valid_input s a
  then Some (map (fun u => (u, net_balance s a u)) (members_of s a))
  else None.

(** Modelled from the spec: the sum of all members' computed
    balances. *)
Definition total (bs : list (uuid * Z)) : Z := zsum (map snd bs).

(** Every payer of an expense and both parties of every settlement of
    apartment [a] are members of [a]. *)
Definition parties_are_members (s : Store) (a : uuid) : bool :=
  forallb (fun e => mem_uuid (exp_paid_by e) (members_of s a))
    (expenses_of s a)
  && forallb
       (fun t =>
          mem_uuid (stl_from_user t) (members_of s a)
          && mem_uuid (stl_to_user t) (members_of s a))
       (settlements_of s a).

End BalanceEngine.

(** [a] has a membership row for [u]. *)
Definition is_member (s : Store) (a u : uuid) : bool :=
  existsb
    (fun m => N.eqb (mem_apartment_id m) a && N.eqb (mem_user_id m) u)
    (apartment_members s).

(* ================================================================== *)
(** ** Sample data *)

Module Sample.
Local Open Scope N_scope.
Local Open Scope string_scope.

Definition X : uuid := 1.
Definition Y : uuid := 2.
Definition W : uuid := 3.
Definition flat : uuid := 10.

Definition flat_row : Apartment :=
  {| apt_id := flat; apt_name := "Flat 4"; apt_code := "AB12C3";
     apt_created_by := X; apt_created_at := 1000; apt_updated_at := 1000 |}.

Definition member_X : Member :=
  {| mem_id := 100; mem_apartment_id := flat; mem_user_id := X;
     mem_joined_at := 1000 |}.

Definition member_Y : Member :=
  {| mem_id := 101; mem_apartment_id := flat; mem_user_id := Y;
     mem_joined_at := 1001 |}.

Definition expense (i : uuid) (amount : cents) : Expense :=
  {| exp_id := i; exp_apartment_id := flat; exp_title := "Groceries";
     exp_amount := amount; exp_paid_by := X; exp_date := 20250729;
     exp_created_by := X; exp_created_at := 1002; exp_updated_at := 1002 |}.

Definition split (i e u : uuid) (amount : cents) : Split :=
  {| spl_id := i; spl_expense_id := e; spl_user_id := u;
     spl_amount := amount |}.

(** Two members and nothing spent yet. *)
Definition two_members : Store :=
  {| auth_users := [X; Y; W];
     apartments := [flat_row];
     apartment_members := [member_X; member_Y];
     expenses := []; expense_splits := []; settlements := [] |}.

(** Scenario A: 100.00 paid by [X], split 50.00 / 50.00 between [X] and
    [Y], no settlement. *)
Definition scenario_A : Store :=
  set_expense_splits
    (set_expenses two_members [expense 20 10000%Z])
    [split 30 20 X 5000%Z; split 31 20 Y 5000%Z].

(** Two expenses, of 0.10 and of 0.20. *)
Definition dimes : Store :=
  set_expenses two_members [expense 20 10%Z; expense 21 20%Z].

(** [Y] pays [X] 50.00. *)
Definition payback : Settlement :=
  {| stl_id := 40; stl_apartment_id := flat; stl_from_user := Y;
     stl_to_user := X; stl_amount := 5000%Z; stl_note := None;
     stl_created_at := 1003 |}.

Definition as_user (u : uuid) (c : Command) : Request :=
  {| req_uid := Some u; req_now := 2000; req_cmd := c |}.

(** [Y] records the payment; then every way of touching it or its
    apartment is tried, by both parties. *)
Definition session : list Request :=
  [ as_user Y (InsertSettlement payback);
    as_user Y (UpdateSettlement (fun _ => true)
                 (fun t => {| stl_id := stl_id t;
                              stl_apartment_id := stl_apartment_id t;
                              stl_from_user := stl_from_user t;
                              stl_to_user := stl_to_user t;
                              stl_amount := 1%Z;
                              stl_note := stl_note t;
                              stl_created_at := stl_created_at t |}));
    as_user X (DeleteSettlement (fun _ => true));
    as_user X (DeleteApartment (fun _ => true)) ].

(** How the two-member store comes about from nothing. *)
Definition setup : list Request :=
  [ as_user X (SignUp X); as_user Y (SignUp Y); as_user W (SignUp W);
    as_user X (InsertApartment flat_row);
    as_user X (InsertMember member_X);
    as_user Y (InsertMember member_Y) ].

(** Scenario C: the first two candidates are taken, the third is free. *)
Definition draws (k : nat) : Q :=
  if (k <? 6)%nat then 0%Q
  else if (k <? 12)%nat then (1 # 2)%Q
  else (99 # 100)%Q.

Definition taken : list Apartment :=
  [ {| apt_id := 11; apt_name := "First"; apt_code := "AA00A0";
       apt_created_by := X; apt_created_at := 1; apt_updated_at := 1 |};
    {| apt_id := 12; apt_name := "Second"; apt_code := "MM44M4";
       apt_created_by := X; apt_created_at := 2; apt_updated_at := 2 |} ].

End Sample.

(* ================================================================== *)
(** ** Draws behind a given code *)

(** [k / 1024] as a double.  For [k] from 0 to 1023 these are values in
    [0,1) that [RANDOM()] can return, whether it draws 31, 48 or 52
    random bits, and their products with 25 and with 9 are exact. *)
Definition dyadic (k : Z) : float :=
  PrimFloat.div (PrimFloat.of_uint63 (Uint63.of_Z k))
    (PrimFloat.of_uint63 (Uint63.of_Z 1024)).

(** The numerator [k] nearest to [n * 1024 / d], and 1023 at most. *)
Definition numerator (n d : Z) : Z :=
  Z.min 1023 ((n * 2048 + d) / (2 * d)).

(** A draw that [(RANDOM() * 25)::INT] turns into the offset of letter
    [c], and one that [(RANDOM() * 9)::INT] turns into digit [c]. *)
Definition letter_draw_of (c : ascii) : float :=
  dyadic (numerator (Z.of_N (code_of c) - 65) 25).

Definition digit_draw_of (c : ascii) : float :=
  dyadic (numerator (Z.of_N (code_of c) - 48) 9).

Definition draws_of (code : string) (k : nat) : float :=
  match list_ascii_of_string code with
  | [a; b; c; d; e; f] =>
      nth k
        [letter_draw_of a; letter_draw_of b; digit_draw_of c;
         digit_draw_of d; letter_draw_of e; digit_draw_of f]
        (dyadic 0)
  | _ => dyadic 0
  end.

(** [SELECT id FROM public.expenses WHERE created_by = auth.uid()], the
    subquery of the policy on [expense_splits] that is declared FOR ALL. *)
Definition my_expenses (s : Store) (me : option uuid) : list uuid :=
  map exp_id
    (filter (fun e => uid_is me (exp_created_by e)) (expenses s)).

(* ================================================================== *)
(** ** Requests used in the examples below *)

Module Cases.
Local Open Scope N_scope.
Local Open Scope string_scope.

(** [X] rewrites the title of the expenses they created. *)
Definition retitle (e : Expense) : Expense :=
  {| exp_id := exp_id e; exp_apartment_id := exp_apartment_id e;
     exp_title := "Food"; exp_amount := exp_amount e;
     exp_paid_by := exp_paid_by e; exp_date := exp_date e;
     exp_created_by := exp_created_by e;
     exp_created_at := exp_created_at e;
     exp_updated_at := exp_updated_at e |}.

(** What [Y] sends while [X] is away. *)
Definition others : list Request :=
  [ Sample.as_user Sample.Y (DeleteMember (fun _ => true));
    Sample.as_user Sample.Y (UpdateExpense (fun _ => true) retitle);
    Sample.as_user Sample.Y (DeleteExpense (fun _ => true));
    Sample.as_user Sample.W
      (InsertMember {| mem_id := 102; mem_apartment_id := Sample.flat;
                       mem_user_id := Sample.X; mem_joined_at := 3000 |});
    Sample.as_user Sample.W
      (UpdateApartment (fun _ => true)
         (fun a => {| apt_id := apt_id a; apt_name := "Taken over";
                      apt_code := apt_code a;
                      apt_created_by := Sample.W;
                      apt_created_at := apt_created_at a;
                      apt_updated_at := apt_updated_at a |})) ].

(** Scenario B: scenario A, and [Y] has paid [X] the 50.00. *)
Definition scenario_B : Store :=
  set_settlements Sample.scenario_A [Sample.payback].

(** 100.00 paid by [W], who has no membership row in the flat, and split
    50.00 / 50.00 between its members [X] and [Y]. *)
Definition paid_by_outsider : Store :=
  set_expense_splits
    (set_expenses Sample.two_members
       [ {| exp_id := 20; exp_apartment_id := Sample.flat;
            exp_title := "Groceries"; exp_amount := 10000%Z;
            exp_paid_by := Sample.W; exp_date := 20250729;
            exp_created_by := Sample.X; exp_created_at := 1002;
            exp_updated_at := 1002 |} ])
    [Sample.split 30 20 Sample.X 5000%Z; Sample.split 31 20 Sample.Y 5000%Z].

(** [W] adds a membership row of their own for the flat. *)
Definition member_W : Member :=
  {| mem_id := 102; mem_apartment_id := Sample.flat;
     mem_user_id := Sample.W; mem_joined_at := 2000 |}.

End Cases.

(* ================================================================== *)
(** * Properties *)

(** ** Row security and the request machine *)

Lemma filter_all {A : Type} (f : A -> bool) (l : list A) :
  (forall x, f x = true) -> filter f l = l.
Proof.
  intros Hf. induction l as [|x l IH]; simpl; [reflexivity|].
  now rewrite Hf, IH.
Qed.

Lemma filter_none {A : Type} (f : A -> bool) (l : list A) :
  (forall x, f x = false) -> filter f l = [].
Proof.
  intros Hf. induction l as [|x l IH]; simpl; [reflexivity|].
  now rewrite Hf.
Qed.

Section Unreachable.
Context {R : Type} (ps : list (Policy R)) (s : Store) (me : option uuid).

Lemma update_rows_unreachable trigger cond set rows :
  (forall r, rls_using ps s me UPDATE r = false) ->
  update_rows ps s me trigger cond set rows = Some rows.
Proof.
  intros Hno. unfold update_rows.
  assert (Hall : forallb
            (fun r => negb (cond r && rls_using ps s me UPDATE r)
                      || rls_check ps s me UPDATE (trigger (set r))) rows
          = true).
  { apply forallb_forall. intros r _. now rewrite Hno, andb_false_r. }
  rewrite Hall. f_equal.
  rewrite <- (map_id rows) at 2. apply map_ext.
  intros r. now rewrite Hno, andb_false_r.
Qed.

Lemma delete_hits_unreachable cond r :
  (forall r, rls_using ps s me DELETE r = false) ->
  delete_hits ps s me cond r = false.
Proof. intros Hno. unfold delete_hits. now rewrite Hno, andb_false_r. Qed.

Lemma delete_rows_unreachable cond rows :
  (forall r, rls_using ps s me DELETE r = false) ->
  delete_rows ps s me cond rows = rows.
Proof.
  intros Hno. unfold delete_rows. apply filter_all.
  intros r. now rewrite delete_hits_unreachable.
Qed.

Lemma update_rows_length trigger cond set rows rows' :
  update_rows ps s me trigger cond set rows = Some rows' ->
  List.length rows' = List.length rows.
Proof.
  unfold update_rows. destruct (forallb _ rows); [|discriminate].
  intros [= <-]. apply length_map.
Qed.

Lemma insert_row_spec r rows rows' :
  insert_row ps s me r rows = Some rows' ->
  rows' = rows ++ [r] /\ rls_check ps s me INSERT r = true.
Proof.
  unfold insert_row. destruct (rls_check ps s me INSERT r); [|discriminate].
  intros [= <-]. split; reflexivity.
Qed.
End Unreachable.

(** No policy of [apartments] is [FOR DELETE] or [FOR ALL]. *)
Lemma apartments_no_delete s me r :
  rls_using apartments_policies s me DELETE r = false.
Proof. reflexivity. Qed.

(** No policy of [settlements] is [FOR UPDATE], [FOR DELETE] or [FOR ALL]. *)
Lemma settlements_no_update s me r :
  rls_using settlements_policies s me UPDATE r = false.
Proof. reflexivity. Qed.

Lemma settlements_no_delete s me r :
  rls_using settlements_policies s me DELETE r = false.
Proof. reflexivity. Qed.

Lemma cascade_apartments_nil (s : Store) : cascade_apartments [] s = s.
Proof.
  destruct s as [us aps ms es ps ts].
  unfold cascade_apartments, cascade_expenses, set_expense_splits. simpl.
  rewrite (filter_none (fun _ : Expense => false)) by reflexivity. simpl.
  rewrite !filter_all by reflexivity. reflexivity.
Qed.

Lemma set_apartments_same (s : Store) : set_apartments s (apartments s) = s.
Proof. now destruct s. Qed.

(** A DELETE on [apartments] reaches no row, whoever asks. *)
Lemma delete_apartment_noop (s : Store) me now cond :
  fst (exec {| req_uid := me; req_now := now;
               req_cmd := DeleteApartment cond |} s) = s.
Proof.
  unfold exec; simpl.
  rewrite (filter_none (delete_hits apartments_policies s me cond))
    by (intros r; apply delete_hits_unreachable, apartments_no_delete).
  rewrite delete_rows_unreachable by apply apartments_no_delete.
  simpl. rewrite cascade_apartments_nil, set_apartments_same.
  unfold commit. now destruct (store_ok s).
Qed.

Lemma commit_cases (s s' : Store) :
  fst (commit s s') = s \/ (fst (commit s s') = s' /\ store_ok s' = true).
Proof.
  unfold commit. destruct (store_ok s') eqn:E; simpl; auto.
Qed.

Lemma attempt_cases {R : Type} (s : Store) put (rows : option (list R)) :
  fst (attempt s put rows) = s
  \/ exists l, rows = Some l /\ fst (attempt s put rows) = put s l
               /\ store_ok (put s l) = true.
Proof.
  destruct rows as [l|]; simpl; [|now left].
  destruct (commit_cases s (put s l)) as [H|[H1 H2]]; [now left|].
  right. exists l. auto.
Qed.

(** The constraints hold after every request. *)
Lemma exec_store_ok (q : Request) (s : Store) :
  store_ok s = true -> store_ok (fst (exec q s)) = true.
Proof.
  intros Hok. unfold exec.
  destruct (req_cmd q);
    try (destruct (mem_uuid u (auth_users s)); [exact Hok|]);
    match goal with
    | |- context [attempt s ?put ?rows] =>
        destruct (attempt_cases s put rows) as [E|(l & _ & E & Hl)];
        rewrite E; assumption
    | |- context [commit s ?s'] =>
        destruct (commit_cases s s') as [E|[E Hl]]; rewrite E; assumption
    end.
Qed.

Lemma run_store_ok (qs : list Request) (s : Store) :
  store_ok s = true -> store_ok (run s qs) = true.
Proof.
  revert s. induction qs as [|q qs IH]; intros s Hok; simpl; [assumption|].
  apply IH, exec_store_ok, Hok.
Qed.

Example two_members_reachable :
  run empty_store Sample.setup = Sample.two_members.
Proof. reflexivity. Qed.

(** What one request can do to [settlements]: nothing, or append the row
    of an accepted INSERT. *)
Lemma exec_settlements (q : Request) (s : Store) :
  settlements (fst (exec q s)) = settlements s
  \/ exists t,
       req_cmd q = InsertSettlement t
       /\ settlements (fst (exec q s)) = settlements s ++ [t]
       /\ rls_check settlements_policies s (req_uid q) INSERT t = true.
Proof.
  destruct q as [me now c].
  destruct c; try (rewrite delete_apartment_noop; now left);
    unfold exec; cbn [req_cmd req_uid req_now];
    try (destruct (mem_uuid u (auth_users s)); [now left|]);
    try match goal with
      | |- context [attempt s ?put ?rows] =>
          destruct (attempt_cases s put rows) as [E|(l & Hl & E & _)];
          rewrite E; [now left|]
      | |- context [commit s ?s'] =>
          destruct (commit_cases s s') as [E|[E _]]; rewrite E; [now left|]
      end;
    try (left; reflexivity).
  - (* InsertSettlement *)
    apply insert_row_spec in Hl. destruct Hl as [-> Hchk].
    right. exists r. repeat split; assumption.
  - (* UpdateSettlement *)
    rewrite update_rows_unreachable in Hl by apply settlements_no_update.
    injection Hl as <-. now left.
  - (* DeleteSettlement *)
    rewrite delete_rows_unreachable by apply settlements_no_delete.
    now left.
Qed.

(** What one request can do to the number of [apartments] rows. *)
Lemma exec_apartments_length (q : Request) (s : Store) :
  (List.length (apartments s)
   <= List.length (apartments (fst (exec q s))))%nat.
Proof.
  destruct q as [me now c].
  destruct c; try (rewrite delete_apartment_noop; reflexivity);
    unfold exec; cbn [req_cmd req_uid req_now];
    try (destruct (mem_uuid u (auth_users s)); [reflexivity|]);
    try match goal with
      | |- context [attempt s ?put ?rows] =>
          destruct (attempt_cases s put rows) as [E|(l & Hl & E & _)];
          rewrite E; [reflexivity|]
      | |- context [commit s ?s'] =>
          destruct (commit_cases s s') as [E|[E _]]; rewrite E; [reflexivity|]
      end;
    try reflexivity.
  - (* InsertApartment *)
    apply insert_row_spec in Hl. destruct Hl as [-> _].
    simpl. rewrite length_app. lia.
  - (* UpdateApartment *)
    apply update_rows_length in Hl. simpl. lia.
Qed.

Lemma is_member_my_apartments (s : Store) (a u : uuid) :
  in_my_apartments s (Some u) a = is_member s a u.
Proof.
  unfold in_my_apartments, my_apartments, is_member, mem_uuid.
  induction (apartment_members s) as [|m l IH]; [reflexivity|].
  cbn [filter existsb].
  destruct (uid_is (Some u) (mem_user_id m)) eqn:Eu;
    cbn [map existsb]; rewrite IH; cbn [uid_is] in Eu.
  - apply N.eqb_eq in Eu. subst u.
    now rewrite N.eqb_refl, andb_true_r, (N.eqb_sym (mem_apartment_id m) a).
  - now rewrite (N.eqb_sym (mem_user_id m) u), Eu, andb_false_r.
Qed.

Lemma settlement_check_spec (s : Store) (me : option uuid) (t : Settlement) :
  rls_check settlements_policies s me INSERT t = true ->
  me = Some (stl_from_user t)
  /\ is_member s (stl_apartment_id t) (stl_from_user t) = true.
Proof.
  unfold rls_check; simpl. rewrite orb_false_r.
  intros H. apply andb_prop in H. destruct H as [Hu Hm].
  destruct me as [u|]; simpl in Hu; [|discriminate].
  apply N.eqb_eq in Hu. subst u.
  split; [reflexivity|]. now rewrite <- is_member_my_apartments.
Qed.

(** ** C7 *)

(** C7.  In a store whose constraints hold, after any sequence of client
    requests every settlement row has a strictly positive amount, and the
    settlement rows the store started with are all still there, unchanged
    and in place: requests can only have appended rows. *)
Theorem settlements_positive_and_immutable (s : Store) (qs : list Request) :
  store_ok s = true ->
  (forall t, In t (settlements (run s qs)) -> 0 < stl_amount t)
  /\ exists added, settlements (run s qs) = settlements s ++ added.
Proof.
  intros Hok. split.
  - intros t Ht.
    pose proof (run_store_ok qs s Hok) as Hrun.
    unfold store_ok in Hrun. apply andb_prop in Hrun. destruct Hrun as [_ Hst].
    unfold settlements_ok in Hst. apply andb_prop in Hst.
    destruct Hst as [_ Hall].
    rewrite forallb_forall in Hall. specialize (Hall t Ht).
    apply andb_prop in Hall. destruct Hall as [_ Hpos].
    now apply Z.ltb_lt.
  - clear Hok. revert s. induction qs as [|q qs IH]; intros s; simpl.
    + exists []. now rewrite app_nil_r.
    + destruct (IH (fst (exec q s))) as [added Hadd]. rewrite Hadd.
      destruct (exec_settlements q s) as [E|(t & _ & E & _)]; rewrite E.
      * now exists added.
      * exists (t :: added). now rewrite <- app_assoc.
Qed.

Lemma settlements_positive_and_immutable_witness :
  store_ok Sample.scenario_A = true
  /\ (forall t,
        In t (settlements (run Sample.scenario_A Sample.session)) ->
        0 < stl_amount t)
  /\ exists added,
       settlements (run Sample.scenario_A Sample.session)
       = settlements Sample.scenario_A ++ added.
Proof.
  split; [reflexivity|].
  apply (settlements_positive_and_immutable Sample.scenario_A Sample.session).
  reflexivity.
Defined.

(** The payment recorded in the sample session survives the UPDATE and the
    two DELETEs that follow it, untouched. *)
Example session_keeps_payback :
  settlements (run Sample.scenario_A Sample.session) = [Sample.payback].
Proof. reflexivity. Qed.

(** ** C8 *)

Lemma Settlement_eq_dec (a b : Settlement) : {a = b} + {a <> b}.
Proof.
  decide equality;
    try apply N.eq_dec; try apply Z.eq_dec;
    decide equality; apply string_dec.
Qed.

(** C8.  An INSERT into [settlements] is accepted only from the user the
    row names as [from_user], and only while that user has a membership
    row in the row's apartment; so every settlement row that a sequence of
    client requests has added was inserted by its [from_user] at a moment
    when that user was a member of its apartment. *)
Theorem settlement_inserted_by_member :
  (forall (s : Store) (q : Request) (t : Settlement),
      req_cmd q = InsertSettlement t ->
      snd (exec q s) = Done ->
      req_uid q = Some (stl_from_user t)
      /\ is_member s (stl_apartment_id t) (stl_from_user t) = true)
  /\ (forall (s : Store) (qs : list Request) (t : Settlement),
        In t (settlements (run s qs)) ->
        ~ In t (settlements s) ->
        exists before q after,
          qs = before ++ q :: after
          /\ req_cmd q = InsertSettlement t
          /\ req_uid q = Some (stl_from_user t)
          /\ is_member (run s before) (stl_apartment_id t) (stl_from_user t)
             = true).
Proof.
  split.
  - intros s [me now c] t Hc Hdone. simpl in Hc. subst c.
    unfold exec in Hdone. cbn [req_cmd req_uid req_now] in *.
    unfold insert_row in Hdone.
    destruct (rls_check settlements_policies s me INSERT t) eqn:Hchk;
      [|discriminate].
    now apply settlement_check_spec.
  - intros s qs. revert s.
    induction qs as [|q qs IH]; intros s t Hin Hnew; simpl in Hin.
    + contradiction.
    + destruct (in_dec Settlement_eq_dec t (settlements (fst (exec q s))))
        as [Hnow|Hlater].
      * destruct (exec_settlements q s) as [E|(t' & Hc & E & Hchk)].
        -- rewrite E in Hnow. contradiction.
        -- rewrite E in Hnow. apply in_app_or in Hnow.
           destruct Hnow as [Hold|[<-|[]]]; [contradiction|].
           apply settlement_check_spec in Hchk. destruct Hchk as [Hu Hm].
           exists [], q, qs. simpl. repeat split; assumption.
      * destruct (IH _ t Hin Hlater) as (before & q' & after & -> & Hc & Hu & Hm).
        exists (q :: before), q', after. simpl. repeat split; assumption.
Qed.

Lemma settlement_inserted_by_member_witness :
  (req_uid (Sample.as_user Sample.Y (InsertSettlement Sample.payback))
   = Some (stl_from_user Sample.payback)
   /\ is_member Sample.scenario_A (stl_apartment_id Sample.payback)
        (stl_from_user Sample.payback) = true)
  /\ exists before q after,
       Sample.session = before ++ q :: after
       /\ req_cmd q = InsertSettlement Sample.payback
       /\ req_uid q = Some (stl_from_user Sample.payback)
       /\ is_member (run Sample.scenario_A before)
            (stl_apartment_id Sample.payback)
            (stl_from_user Sample.payback) = true.
Proof.
  destruct settlement_inserted_by_member as [Hstep Htrace].
  split.
  - apply (Hstep Sample.scenario_A
             (Sample.as_user Sample.Y (InsertSettlement Sample.payback))
             Sample.payback); reflexivity.
  - apply (Htrace Sample.scenario_A Sample.session Sample.payback).
    + vm_compute. left. reflexivity.
    + simpl. intros [].
Defined.

(** ** C9 *)

(** C9.  The policies of [apartments] are one for SELECT, one for INSERT
    and one for UPDATE; no existing row is within reach of a DELETE, a
    DELETE request leaves the store as it was, and over any sequence of
    client requests the number of apartment rows never goes down. *)
Theorem apartments_never_deleted :
  map pol_cmd apartments_policies = [SELECT; INSERT; UPDATE]
  /\ (forall (s : Store) me r,
        rls_using apartments_policies s me DELETE r = false)
  /\ (forall (s : Store) me now cond,
        fst (exec {| req_uid := me; req_now := now;
                     req_cmd := DeleteApartment cond |} s) = s)
  /\ (forall (s : Store) (qs : list Request),
        (List.length (apartments s)
         <= List.length (apartments (run s qs)))%nat).
Proof.
  split; [reflexivity|]. split; [|split].
  - intros. apply apartments_no_delete.
  - intros. apply delete_apartment_noop.
  - intros s qs. revert s.
    induction qs as [|q qs IH]; intros s; simpl; [reflexivity|].
    etransitivity; [apply exec_apartments_length|apply IH].
Qed.

(* ================================================================== *)
(** ** Looking rows up by a unique key *)

Lemma filter_none_in {A : Type} (f : A -> bool) (l : list A) :
  (forall x, In x l -> f x = false) -> filter f l = [].
Proof.
  induction l as [|x l IH]; intros Hf; simpl; [reflexivity|].
  rewrite (Hf x) by now left.
  apply IH. intros y Hy. apply Hf. now right.
Qed.

Section UniqueKey.
Context {A K : Type} (eqb : K -> K -> bool) (key : A -> K).
Hypothesis eqb_spec : forall x y, eqb x y = true <-> x = y.

Lemma existsb_key_false (k : K) (l : list A) (x : A) :
  existsb (eqb k) (map key l) = false -> In x l -> eqb (key x) k = false.
Proof.
  intros Hno Hin. destruct (eqb (key x) k) eqn:E; [|reflexivity].
  apply eqb_spec in E. subst k.
  assert (Hex : existsb (eqb (key x)) (map key l) = true).
  { apply existsb_exists. exists (key x). split.
    - now apply in_map.
    - now apply eqb_spec. }
  congruence.
Qed.

Lemma eqb_false_sym (x y : K) : eqb x y = false -> eqb y x = false.
Proof.
  intros H. destruct (eqb y x) eqn:E; [|reflexivity].
  apply eqb_spec in E. subst y.
  assert (eqb x x = true) by now apply eqb_spec.
  congruence.
Qed.

(** Under a UNIQUE key, the visible rows whose key is that of the stored
    and visible row [a] are [a] alone. *)
Lemma unique_filter (vis : A -> bool) (l : list A) (a : A) :
  uniqueb eqb (map key l) = true ->
  In a l -> vis a = true ->
  filter (fun x => eqb (key x) (key a) && vis x) l = [a].
Proof.
  induction l as [|x l IH]; intros Hu Hin Hvis; [contradiction|].
  cbn [map uniqueb] in Hu. apply andb_prop in Hu. destruct Hu as [Hx Hl].
  apply negb_true_iff in Hx. cbn [filter].
  destruct (eqb (key x) (key a)) eqn:Exa.
  - apply eqb_spec in Exa.
    destruct Hin as [->|Hin].
    + rewrite Hvis. cbn [andb]. f_equal.
      apply filter_none_in. intros y Hy.
      now rewrite (existsb_key_false _ _ _ Hx Hy).
    + apply (existsb_key_false _ _ _ Hx) in Hin.
      rewrite Exa in Hin.
      assert (eqb (key a) (key a) = true) by now apply eqb_spec.
      congruence.
  - cbn [andb]. destruct Hin as [->|Hin].
    + assert (eqb (key a) (key a) = true) by now apply eqb_spec.
      congruence.
    + now apply IH.
Qed.
End UniqueKey.

(** Break every conjunction of checks among the hypotheses. *)
Ltac split_andb :=
  repeat match goal with
    | H : _ && _ = true |- _ => apply andb_prop in H; destruct H
    end.

Lemma pair_eqb_spec (p q : uuid * uuid) : pair_eqb p q = true <-> p = q.
Proof.
  destruct p as [a b], q as [c d]. unfold pair_eqb. simpl.
  rewrite andb_true_iff, !N.eqb_eq. split.
  - now intros [-> ->].
  - now intros [= -> ->].
Qed.

Local Open Scope string_scope.

(* ================================================================== *)
(** ** [generate_apartment_code]: shape of the candidates *)

Lemma to_INT_range (q : Q) (n : Z) :
  (0 <= q)%Q -> (q < inject_Z n)%Q -> 0 <= to_INT q <= n.
Proof.
  intros H0 Hn.
  assert (Hf0 : 0 <= Qfloor q).
  { change 0 with (Qfloor (inject_Z 0)). now apply Qfloor_resp_le. }
  assert (Hfn : Qfloor q < n).
  { rewrite Zlt_Qlt. eapply Qle_lt_trans; [apply Qfloor_le|exact Hn]. }
  unfold to_INT.
  destruct (Qcompare (q - inject_Z (Qfloor q)) (1 # 2));
    [destruct (Z.even (Qfloor q))| |]; lia.
Qed.

Lemma draw_scaled (r : Q) (n : Z) :
  0 < n -> (0 <= r < 1)%Q ->
  (0 <= r * inject_Z n)%Q /\ (r * inject_Z n < inject_Z n)%Q.
Proof.
  intros Hn [H0 H1].
  assert (HnQ : (inject_Z 0 < inject_Z n)%Q) by (rewrite <- Zlt_Qlt; exact Hn).
  split.
  - apply Qmult_le_0_compat; [exact H0|now apply Qlt_le_weak].
  - rewrite <- (Qmult_1_l (inject_Z n)) at 2.
    now apply Qmult_lt_compat_r.
Qed.

(** [CHR(65 + n)] for [n] in 0..25 is one upper-case letter. *)
Lemma CHR_letter (n : Z) :
  0 <= n <= 25 ->
  exists c, CHR (65 + n) = String c EmptyString
            /\ is_upper c = true /\ upper_char c = c.
Proof.
  intros Hn. exists (ascii_of_N (Z.to_N (65 + n))).
  assert (Hcode : code_of (ascii_of_N (Z.to_N (65 + n))) = Z.to_N (65 + n)).
  { apply N_ascii_embedding. lia. }
  split; [reflexivity|].
  unfold upper_char, is_upper, is_lower. rewrite Hcode. split.
  - apply andb_true_intro. split; apply N.leb_le; lia.
  - replace (97 <=? Z.to_N (65 + n))%N with false; [reflexivity|].
    symmetry. apply N.leb_gt. lia.
Qed.

(** The text of an integer in 0..9 is one digit. *)
Lemma int_text_digit (n : Z) :
  0 <= n <= 9 ->
  exists c, int_text n = String c EmptyString
            /\ is_digit c = true /\ upper_char c = c.
Proof.
  intros Hn.
  assert (Hm : (Z.to_nat n < 10)%nat) by lia.
  rewrite <- (Z2Nat.id n) by lia.
  revert Hm. generalize (Z.to_nat n) as m. intros m Hm.
  do 10 (destruct m as [|m];
         [eexists; split; [reflexivity|split; reflexivity]|]).
  lia.
Qed.

Section Candidates.
Variable rnd : nat -> Q.
Hypothesis rnd_unit : forall n, (0 <= rnd n < 1)%Q.

Lemma letter_draw (k : nat) :
  exists c, CHR (65 + to_INT (rnd k * 25)) = String c EmptyString
            /\ is_upper c = true /\ upper_char c = c.
Proof.
  apply CHR_letter.
  destruct (draw_scaled (rnd k) 25 eq_refl (rnd_unit k)) as [H0 H1].
  now apply to_INT_range.
Qed.

Lemma digit_draw (k : nat) :
  exists c, int_text (to_INT (rnd k * 9)) = String c EmptyString
            /\ is_digit c = true /\ upper_char c = c.
Proof.
  apply int_text_digit.
  destruct (draw_scaled (rnd k) 9 eq_refl (rnd_unit k)) as [H0 H1].
  now apply to_INT_range.
Qed.

(** Every candidate is letter, letter, digit, digit, letter, digit. *)
Lemma candidate_code_format (k : nat) :
  code_format (candidate_code rnd k) = true.
Proof.
  unfold candidate_code.
  destruct (letter_draw k) as (a & -> & Ha & Ua).
  destruct (letter_draw (k + 1)) as (b & -> & Hb & Ub).
  destruct (digit_draw (k + 2)) as (c & -> & Hc & Uc).
  destruct (digit_draw (k + 3)) as (d & -> & Hd & Ud).
  destruct (letter_draw (k + 4)) as (e & -> & He & Ue).
  destruct (digit_draw (k + 5)) as (f & -> & Hf & Uf).
  unfold UPPER, code_format. cbn [append toUpperCase list_ascii_of_string].
  now rewrite Ua, Ub, Uc, Ud, Ue, Uf, Ha, Hb, Hc, Hd, He, Hf.
Qed.
End Candidates.

(** ** [generate_apartment_code]: the loop *)

Lemma code_exists_nonempty (vc : variable_conflict) (rows : list Apartment)
    (code : string) :
  rows <> [] ->
  code_exists vc rows code = match vc with error => None | _ => Some true end.
Proof.
  intros Hne. destruct rows as [|r rows]; [contradiction|].
  destruct vc; cbn [code_exists existsb]; try reflexivity;
    now rewrite String.eqb_refl.
Qed.

Lemma code_exists_empty (vc : variable_conflict) (code : string) :
  code_exists vc [] code = match vc with error => None | _ => Some false end.
Proof. now destruct vc. Qed.

(** With any row in [apartments] the function never returns: the statement
    is rejected, or the check is true on every pass. *)
Lemma generate_apartment_code_nonempty (vc : variable_conflict)
    (rows : list Apartment) (rnd : nat -> Q) (k fuel : nat) :
  rows <> [] ->
  generate_apartment_code vc rows rnd k fuel
  = match vc, fuel with
    | error, S _ => Raised
    | _, _ => StillLooping
    end.
Proof.
  intros Hne. revert k.
  induction fuel as [|fuel IH]; intros k; [now destruct vc|].
  cbn [generate_apartment_code]. rewrite code_exists_nonempty by exact Hne.
  destruct vc; [reflexivity| |]; rewrite IH; now destruct fuel.
Qed.

(** With no row in [apartments] the first candidate is returned, unless
    the statement is rejected. *)
Lemma generate_apartment_code_empty (vc : variable_conflict)
    (rnd : nat -> Q) (k fuel : nat) :
  generate_apartment_code vc [] rnd k (S fuel)
  = match vc with
    | error => Raised
    | _ => Returned (candidate_code rnd k)
    end.
Proof. now destruct vc. Qed.

(** ** C3 *)

(** C3 does not hold of the function.  In scenario C the first two
    candidates are the codes of the two stored apartments and the third,
    [ZZ99Z9], is free; yet however the name clash is resolved and however
    long the loop is left to run, no code is returned: the call is
    rejected, or is still looping. *)
Theorem generate_apartment_code_stuck (vc : variable_conflict) (fuel : nat) :
  map apt_code Sample.taken
  = [candidate_code Sample.draws 0; candidate_code Sample.draws 6]
  /\ candidate_code Sample.draws 12 = "ZZ99Z9"
  /\ existsb (String.eqb "ZZ99Z9") (map apt_code Sample.taken) = false
  /\ generate_apartment_code vc Sample.taken Sample.draws 0 fuel
     = match vc, fuel with
       | error, S _ => Raised
       | _, _ => StillLooping
       end
  /\ forall code,
       generate_apartment_code vc Sample.taken Sample.draws 0 fuel
       <> Returned code.
Proof.
  assert (Hne : Sample.taken <> []) by discriminate.
  repeat split; try reflexivity.
  - now apply generate_apartment_code_nonempty.
  - intros code. rewrite generate_apartment_code_nonempty by exact Hne.
    destruct vc, fuel; discriminate.
Qed.

(** ** C5 *)

(** C5.  With draws in [0,1), every code the function returns is six
    characters: upper-case letter, letter, digit, digit, letter, digit. *)
Theorem generated_code_format (vc : variable_conflict)
    (rows : list Apartment) (rnd : nat -> Q) (k fuel : nat) (code : string) :
  (forall n, (0 <= rnd n < 1)%Q) ->
  generate_apartment_code vc rows rnd k fuel = Returned code ->
  code_format code = true.
Proof.
  intros Hrnd. revert k.
  induction fuel as [|fuel IH]; intros k; cbn [generate_apartment_code];
    [discriminate|].
  destruct (code_exists vc rows (candidate_code rnd k)) as [[|]|].
  - apply IH.
  - intros [= <-]. now apply candidate_code_format.
  - discriminate.
Qed.

Lemma generated_code_format_witness :
  generate_apartment_code use_column [] (fun _ => (1 # 2)%Q) 0 1
  = Returned "MM44M4"
  /\ code_format "MM44M4" = true.
Proof.
  split; [reflexivity|].
  apply (generated_code_format use_column [] (fun _ => (1 # 2)%Q) 0 1).
  - intros n. split; [discriminate|reflexivity].
  - reflexivity.
Defined.

(** ** C1 *)

(** C1 does not hold of the dashboard.  In scenario A the algorithm of the
    specification gives [X] +50.00 and [Y] -50.00, as the claim says, but
    the balance each of them is shown is the constant [0]. *)
Theorem dashboard_balance_scenario_A :
  store_ok Sample.scenario_A = true
  /\ BalanceEngine.net_balance Sample.scenario_A Sample.flat Sample.X = 5000
  /\ BalanceEngine.net_balance Sample.scenario_A Sample.flat Sample.Y = -5000
  /\ Dashboard.shown_balance Sample.scenario_A Sample.flat Sample.X
     = Some 0%float
  /\ Dashboard.shown_balance Sample.scenario_A Sample.flat Sample.Y
     = Some 0%float
  /\ PrimFloat.eqb 0%float (Number 5000) = false
  /\ PrimFloat.eqb 0%float (Number (-5000)) = false.
Proof. repeat split; vm_compute; reflexivity. Qed.

(** ** C6 *)

(** Adding to zero leaves a number that is neither zero nor NaN as it is. *)
Lemma add_zero_truthy (x : float) :
  truthy x = true -> PrimFloat.add 0%float x = x.
Proof.
  intros Hx. apply Prim2SF_inj. rewrite add_spec.
  change (Prim2SF 0%float) with (S754_zero false).
  destruct (Prim2SF x) as [sx| | |] eqn:E; try reflexivity.
  destruct sx; [|reflexivity].
  unfold truthy, PrimFloat.is_zero in Hx.
  rewrite FloatAxioms.eqb_spec, E in Hx. discriminate.
Qed.

(** C6, as stated, fails: with one expense of 0.10 and one of 0.20 the
    total on the dashboard is not the number for 0.30. *)
Lemma total_expenses_drifts :
  store_ok Sample.dimes = true
  /\ map exp_amount (expenses Sample.dimes) = [10; 20]
  /\ exists total,
       Dashboard.shown_total Sample.dimes Sample.flat Sample.X = Some total
       /\ PrimFloat.eqb total (Number (10 + 20)) = false.
Proof.
  split; [reflexivity|]. split; [reflexivity|].
  eexists. split; vm_compute; reflexivity.
Qed.

(** The CHECK and the column type of each amount. *)
Lemma expense_checks (s : Store) (e : Expense) :
  store_ok s = true -> In e (expenses s) ->
  0 < exp_amount e /\ decimal_10_2 (exp_amount e) = true.
Proof.
  intros Hok Hin. unfold store_ok, expenses_ok in Hok. split_andb.
  match goal with
  | H : forallb _ (expenses s) = true |- _ =>
      rewrite forallb_forall in H; specialize (H e Hin)
  end.
  split_andb. split; [now apply Z.ltb_lt|assumption].
Qed.

Lemma split_checks (s : Store) (p : Split) :
  store_ok s = true -> In p (expense_splits s) ->
  0 <= spl_amount p /\ decimal_10_2 (spl_amount p) = true.
Proof.
  intros Hok Hin. unfold store_ok, expense_splits_ok in Hok. split_andb.
  match goal with
  | H : forallb _ (expense_splits s) = true |- _ =>
      rewrite forallb_forall in H; specialize (H p Hin)
  end.
  split_andb. split; [now apply Z.leb_le|assumption].
Qed.

Lemma settlement_checks (s : Store) (t : Settlement) :
  store_ok s = true -> In t (settlements s) ->
  0 < stl_amount t /\ decimal_10_2 (stl_amount t) = true.
Proof.
  intros Hok Hin. unfold store_ok, settlements_ok in Hok. split_andb.
  match goal with
  | H : forallb _ (settlements s) = true |- _ =>
      rewrite forallb_forall in H; specialize (H t Hin)
  end.
  split_andb. split; [now apply Z.ltb_lt|assumption].
Qed.

(** C6, amended.  In a store whose constraints hold every amount is a
    whole number of cents within the range of [DECIMAL(10,2)].  The total
    of the dashboard is accumulated in binary64: it is zero for no expense
    and the number of the amount for a single expense; each further
    expense is added to the running float. *)
Theorem total_expenses_float_sum (s : Store) :
  store_ok s = true ->
  (forall e, In e (expenses s) ->
             0 < exp_amount e /\ decimal_10_2 (exp_amount e) = true)
  /\ (forall p, In p (expense_splits s) ->
                0 <= spl_amount p /\ decimal_10_2 (spl_amount p) = true)
  /\ (forall t, In t (settlements s) ->
                0 < stl_amount t /\ decimal_10_2 (stl_amount t) = true)
  /\ Dashboard.totalExpenses [] = Number 0
  /\ (forall c, truthy (Number c) = true ->
                Dashboard.totalExpenses [c] = Number c)
  /\ (forall l c,
        Dashboard.totalExpenses (l ++ [c])
        = or_zero
            (PrimFloat.add
               (fold_left (fun sum amount => PrimFloat.add sum (Number amount))
                  l 0%float)
               (Number c))).
Proof.
  intros Hok. repeat split.
  - now apply (expense_checks s e).
  - now apply (expense_checks s e).
  - now apply (split_checks s p).
  - now apply (split_checks s p).
  - now apply (settlement_checks s t).
  - now apply (settlement_checks s t).
  - intros c Hc. unfold Dashboard.totalExpenses. cbn [fold_left].
    rewrite (add_zero_truthy _ Hc). unfold or_zero. now rewrite Hc.
  - intros l c. unfold Dashboard.totalExpenses. now rewrite fold_left_app.
Qed.

Lemma total_expenses_float_sum_witness :
  store_ok Sample.dimes = true
  /\ (forall e, In e (expenses Sample.dimes) ->
                0 < exp_amount e /\ decimal_10_2 (exp_amount e) = true)
  /\ Dashboard.totalExpenses [10] = Number 10.
Proof.
  split; [reflexivity|].
  destruct (total_expenses_float_sum Sample.dimes eq_refl)
    as (Hexp & _ & _ & _ & Hone & _).
  split; [exact Hexp|]. apply Hone. reflexivity.
Defined.

(* ================================================================== *)
(** ** The balance algorithm of the specification nets to zero *)

Module BalanceFacts.
Import BalanceEngine.

Lemma zsum_app (l l' : list Z) : zsum (l ++ l') = zsum l + zsum l'.
Proof. induction l as [|x l IH]; simpl; [reflexivity|]. rewrite IH. lia. Qed.

Lemma zsum_map_sub {A : Type} (f g : A -> Z) (l : list A) :
  zsum (map (fun x => f x - g x) l) = zsum (map f l) - zsum (map g l).
Proof. induction l as [|x l IH]; simpl; [reflexivity|]. rewrite IH. lia. Qed.

Lemma zsum_map_add {A : Type} (f g : A -> Z) (l : list A) :
  zsum (map (fun x => f x + g x) l) = zsum (map f l) + zsum (map g l).
Proof. induction l as [|x l IH]; simpl; [reflexivity|]. rewrite IH. lia. Qed.

Lemma zsum_map_zero {A : Type} (f : A -> Z) (l : list A) :
  (forall x, In x l -> f x = 0) -> zsum (map f l) = 0.
Proof.
  induction l as [|x l IH]; intros H; simpl; [reflexivity|].
  rewrite (H x) by now left. rewrite IH; [reflexivity|].
  intros y Hy. apply H. now right.
Qed.

(** Summing over members, then rows, or over rows, then members. *)
Lemma zsum_swap {A B : Type} (F : A -> B -> Z) (us : list A) (rs : list B) :
  zsum (map (fun u => zsum (map (F u) rs)) us)
  = zsum (map (fun r => zsum (map (fun u => F u r) us)) rs).
Proof.
  induction us as [|u us IH]; simpl.
  - symmetry. now apply zsum_map_zero.
  - rewrite IH. symmetry. apply zsum_map_add.
Qed.

(** An amount booked to one listed user is counted once. *)
Lemma zsum_booked (x : uuid) (v : Z) (us : list uuid) :
  NoDup us -> In x us ->
  zsum (map (fun u => if N.eqb x u then v else 0) us) = v.
Proof.
  induction us as [|u us IH]; intros Hnd Hin; [contradiction|].
  inversion Hnd as [|? ? Hnot Hnd']; subst. simpl.
  destruct (N.eqb_spec x u) as [->|Hne].
  - rewrite zsum_map_zero; [lia|].
    intros y Hy. destruct (N.eqb_spec u y) as [->|_];
      [contradiction|reflexivity].
  - destruct Hin as [->|Hin]; [contradiction|]. now rewrite IH.
Qed.

Section Netting.
Variables (s : Store) (a : uuid) (us : list uuid).
Hypothesis us_distinct : NoDup us.
Hypothesis payer_listed :
  forall e, In e (expenses_of s a) -> In (exp_paid_by e) us.
Hypothesis sharer_listed :
  forall e p, In e (expenses_of s a) -> In p (splits_of s e) ->
              In (spl_user_id p) us.
Hypothesis parties_listed :
  forall t, In t (settlements_of s a) ->
            In (stl_from_user t) us /\ In (stl_to_user t) us.
Hypothesis exact_splits : splits_balanced s a = true.

Lemma expense_nets_zero (e : Expense) :
  In e (expenses_of s a) ->
  zsum (map (fun u => expense_effect s u e) us) = 0.
Proof.
  intros He. unfold expense_effect.
  rewrite (zsum_map_sub
             (fun u => if N.eqb (exp_paid_by e) u then exp_amount e else 0)
             (fun u => zsum (map (share_of u) (splits_of s e)))).
  rewrite zsum_booked by auto.
  rewrite (zsum_swap share_of).
  assert (Hshares :
            zsum (map (fun p => zsum (map (fun u => share_of u p) us))
                    (splits_of s e))
            = zsum (map spl_amount (splits_of s e))).
  { f_equal. apply map_ext_in. intros p Hp. unfold share_of.
    apply zsum_booked; eauto. }
  rewrite Hshares.
  unfold splits_balanced in exact_splits.
  rewrite forallb_forall in exact_splits.
  apply exact_splits in He. apply Z.eqb_eq in He. lia.
Qed.

Lemma settlement_nets_zero (t : Settlement) :
  In t (settlements_of s a) ->
  zsum (map (fun u => settlement_effect u t) us) = 0.
Proof.
  intros Ht. destruct (parties_listed t Ht) as [Hfrom Hto].
  unfold settlement_effect.
  rewrite (zsum_map_sub
             (fun u =>
                if N.eqb (stl_from_user t) u then stl_amount t else 0)
             (fun u => if N.eqb (stl_to_user t) u then stl_amount t else 0)).
  rewrite !zsum_booked by assumption. lia.
Qed.

(** When payers, sharers and settlement parties are all among the
    listed members and every expense is split exactly, the net
    balances of the listed members add up to zero. *)
Lemma net_balance_sum_zero : zsum (map (net_balance s a) us) = 0.
Proof.
  unfold net_balance.
  rewrite (zsum_map_add
             (fun u => zsum (map (expense_effect s u) (expenses_of s a)))
             (fun u =>
                zsum (map (settlement_effect u) (settlements_of s a)))).
  rewrite (zsum_swap (expense_effect s)).
  rewrite (zsum_swap settlement_effect).
  rewrite !zsum_map_zero; [reflexivity| |].
  - apply settlement_nets_zero.
  - apply expense_nets_zero.
Qed.
End Netting.

(** Scenario A meets these conditions for its two members. *)
Example scenario_A_nets_zero :
  zsum (map (net_balance Sample.scenario_A Sample.flat)
          (members_of Sample.scenario_A Sample.flat)) = 0.
Proof.
  apply net_balance_sum_zero.
  - repeat constructor; simpl; intuition discriminate.
  - intros e [<-|[]]. now left.
  - intros e p [<-|[]] [<-|[<-|[]]]; [now left|right; now left].
  - intros t [].
  - reflexivity.
Qed.

End BalanceFacts.

(** No user is listed twice among the members of an apartment: the
    table is UNIQUE on (apartment_id, user_id). *)
Lemma members_of_distinct (s : Store) (a : uuid) :
  store_ok s = true -> NoDup (BalanceEngine.members_of s a).
Proof.
  intros Hok. unfold store_ok, apartment_members_ok in Hok.
  repeat (apply andb_prop in Hok; destruct Hok as [Hok ?]).
  repeat match goal with
         | H : _ && _ = true |- _ => apply andb_prop in H; destruct H
         end.
  match goal with
  | H : uniqueb pair_eqb _ = true |- _ => revert H
  end.
  clear. unfold BalanceEngine.members_of.
  induction (apartment_members s) as [|m l IH]; intros Hu;
    [constructor|].
  cbn [map uniqueb] in Hu. apply andb_prop in Hu. destruct Hu as [Hm Hu].
  cbn [filter]. destruct (N.eqb_spec (mem_apartment_id m) a) as [Ha|_];
    [|now apply IH].
  cbn [map]. constructor; [|now apply IH].
  intros Hin. apply in_map_iff in Hin. destruct Hin as (m' & Hsame & Hm').
  apply filter_In in Hm'. destruct Hm' as [Hm' Ha'].
  apply N.eqb_eq in Ha'. apply negb_true_iff in Hm.
  assert (Hex : existsb
                  (pair_eqb (mem_apartment_id m, mem_user_id m))
                  (map (fun m => (mem_apartment_id m, mem_user_id m)) l)
                = true).
  { apply existsb_exists. exists (mem_apartment_id m', mem_user_id m').
    split.
    - apply in_map_iff. now exists m'.
    - unfold pair_eqb. cbn [fst snd].
      rewrite Ha, Ha', Hsame, !N.eqb_refl. reflexivity. }
  congruence.
Qed.

Lemma mem_uuid_In (x : uuid) (l : list uuid) :
  mem_uuid x l = true -> In x l.
Proof.
  unfold mem_uuid. intros H. apply existsb_exists in H.
  destruct H as (y & Hy & E). apply N.eqb_eq in E. now subst y.
Qed.

(** Scenario B of the specification: both balances are 0.00. *)
Example scenario_B_balances :
  BalanceEngine.balances Cases.scenario_B Sample.flat
  = Some [(Sample.X, 0); (Sample.Y, 0)].
Proof. reflexivity. Qed.

(** ** C2 *)

(** C2 as it is worded fails for the algorithm of section 4.1.  In this
    store every constraint holds, the one expense is split exactly and
    the input is accepted, but the payer has no membership row: the
    members [X] and [Y] are at -50.00 each and their balances add up to
    -100.00. *)
Lemma balances_with_outside_payer :
  store_ok Cases.paid_by_outsider = true
  /\ BalanceEngine.splits_balanced Cases.paid_by_outsider Sample.flat = true
  /\ BalanceEngine.balances Cases.paid_by_outsider Sample.flat
     = Some [(Sample.X, -5000); (Sample.Y, -5000)]
  /\ ~ (forall s a bs,
          store_ok s = true ->
          BalanceEngine.splits_balanced s a = true ->
          BalanceEngine.balances s a = Some bs ->
          BalanceEngine.total bs = 0).
Proof.
  split; [reflexivity|]. split; [reflexivity|]. split; [reflexivity|].
  intros H.
  specialize (H Cases.paid_by_outsider Sample.flat
                [(Sample.X, -5000); (Sample.Y, -5000)]
                eq_refl eq_refl eq_refl).
  discriminate H.
Qed.

(** C2, amended.  In a store whose constraints hold, if every expense of
    apartment [a] is split exactly, the input is one the engine accepts
    (every split is on a member of [a]) and every payer of an expense
    and both parties of every settlement are members of [a], then the
    engine returns the balances of the members of [a] and they add up
    to zero. *)
Theorem member_balances_sum_zero (s : Store) (a : uuid) :
  store_ok s = true ->
  BalanceEngine.splits_balanced s a = true ->
  BalanceEngine.valid_input s a = true ->
  BalanceEngine.parties_are_members s a = true ->
  exists bs,
    BalanceEngine.balances s a = Some bs
    /\ map fst bs = BalanceEngine.members_of s a
    /\ BalanceEngine.total bs = 0.
Proof.
  intros Hok Hbal Hvalid Hparties.
  unfold BalanceEngine.balances. rewrite Hvalid.
  eexists. split; [reflexivity|]. split.
  - rewrite map_map. cbn [fst]. apply map_id.
  - unfold BalanceEngine.total. rewrite map_map. cbn [snd].
    unfold BalanceEngine.parties_are_members in Hparties.
    apply andb_prop in Hparties. destruct Hparties as [Hpay Hstl].
    rewrite forallb_forall in Hpay. rewrite forallb_forall in Hstl.
    unfold BalanceEngine.valid_input in Hvalid.
    apply andb_prop in Hvalid. destruct Hvalid as [Hexp _].
    rewrite forallb_forall in Hexp.
    apply BalanceFacts.net_balance_sum_zero.
    + now apply members_of_distinct.
    + intros e He. apply mem_uuid_In. now apply Hpay.
    + intros e p He Hp. specialize (Hexp e He).
      apply andb_prop in Hexp. destruct Hexp as [_ Hsplits].
      rewrite forallb_forall in Hsplits. specialize (Hsplits p Hp).
      apply andb_prop in Hsplits. destruct Hsplits as [Hmem _].
      now apply mem_uuid_In.
    + intros t Ht. specialize (Hstl t Ht).
      apply andb_prop in Hstl. destruct Hstl as [Hfrom Hto].
      split; now apply mem_uuid_In.
    + exact Hbal.
Qed.

Lemma member_balances_sum_zero_witness :
  exists bs,
    BalanceEngine.balances Cases.scenario_B Sample.flat = Some bs
    /\ map fst bs = BalanceEngine.members_of Cases.scenario_B Sample.flat
    /\ BalanceEngine.total bs = 0.
Proof.
  apply (member_balances_sum_zero Cases.scenario_B Sample.flat);
    reflexivity.
Defined.

(* ================================================================== *)
(** * Further properties of the store read as its policies state *)

Local Close Scope string_scope.

(** ** Rows out of the requester's reach *)

Section Untouched.
Context {R : Type} (ps : list (Policy R)) (s : Store) (me : option uuid).
Variable keep : R -> bool.

Lemma insert_row_untouched (r : R) (rows rows' : list R) :
  (forall x, keep x = true -> rls_check ps s me INSERT x = false) ->
  insert_row ps s me r rows = Some rows' ->
  filter keep rows' = filter keep rows.
Proof.
  intros Hins Hrow. apply insert_row_spec in Hrow. destruct Hrow as [-> Hchk].
  rewrite filter_app. cbn [filter].
  destruct (keep r) eqn:Ek.
  - rewrite (Hins r Ek) in Hchk. discriminate.
  - apply app_nil_r.
Qed.

Lemma update_rows_untouched trigger cond set (rows rows' : list R) :
  (forall x, keep x = true -> rls_using ps s me UPDATE x = false) ->
  (forall x, keep x = true -> rls_check ps s me UPDATE x = false) ->
  update_rows ps s me trigger cond set rows = Some rows' ->
  filter keep rows' = filter keep rows.
Proof.
  intros Huse Hchk. unfold update_rows.
  destruct (forallb _ rows) eqn:Hall; [|discriminate].
  intros [= <-]. rewrite forallb_forall in Hall.
  induction rows as [|r rows IH]; [reflexivity|].
  cbn [map filter].
  rewrite IH by (intros x Hx; apply Hall; now right).
  specialize (Hall r (or_introl eq_refl)).
  destruct (cond r && rls_using ps s me UPDATE r) eqn:Hhit.
  - cbn [negb orb] in Hall.
    apply andb_prop in Hhit. destruct Hhit as [_ Hreach].
    destruct (keep r) eqn:Ek1; [rewrite (Huse r Ek1) in Hreach; discriminate|].
    destruct (keep (trigger (set r))) eqn:Ek2;
      [rewrite (Hchk _ Ek2) in Hall; discriminate|].
    reflexivity.
  - reflexivity.
Qed.

Lemma delete_rows_untouched cond (rows : list R) :
  (forall x, keep x = true -> rls_using ps s me DELETE x = false) ->
  filter keep (delete_rows ps s me cond rows) = filter keep rows.
Proof.
  intros Hdel. unfold delete_rows, delete_hits.
  induction rows as [|r rows IH]; [reflexivity|].
  cbn [filter].
  destruct (keep r) eqn:Ek.
  - rewrite (Hdel r Ek), andb_false_r. cbn [negb filter].
    now rewrite Ek, IH.
  - destruct (negb _); cbn [filter]; now rewrite ?Ek, IH.
Qed.
End Untouched.

Lemma filter_filter_keep {A : Type} (keep g : A -> bool) (l : list A) :
  (forall x, keep x = true -> g x = true) ->
  filter keep (filter g l) = filter keep l.
Proof.
  intros H. induction l as [|x l IH]; [reflexivity|].
  cbn [filter]. destruct (keep x) eqn:Ek.
  - rewrite (H x Ek). cbn [filter]. now rewrite Ek, IH.
  - destruct (g x); cbn [filter]; now rewrite ?Ek, IH.
Qed.

Lemma uid_is_other (me : option uuid) (u x : uuid) :
  me <> Some u -> uid_is (Some u) x = true -> uid_is me x = false.
Proof.
  intros Hme Hx. cbn [uid_is] in Hx. apply N.eqb_eq in Hx. subst x.
  destruct me as [v|]; [|reflexivity].
  cbn [uid_is]. apply N.eqb_neq. congruence.
Qed.

(** What each policy set comes to, command by command. *)
Lemma members_insert_check s me (r : Member) :
  rls_check apartment_members_policies s me INSERT r
  = uid_is me (mem_user_id r).
Proof. unfold rls_check. simpl. now rewrite orb_false_r. Qed.

Lemma members_delete_using s me (r : Member) :
  rls_using apartment_members_policies s me DELETE r
  = uid_is me (mem_user_id r).
Proof. unfold rls_using. simpl. now rewrite orb_false_r. Qed.

Lemma members_no_update s me (r : Member) :
  rls_using apartment_members_policies s me UPDATE r = false.
Proof. reflexivity. Qed.

Lemma expenses_insert_check s me (r : Expense) :
  rls_check expenses_policies s me INSERT r
  = uid_is me (exp_created_by r)
    && in_my_apartments s me (exp_apartment_id r).
Proof. unfold rls_check. simpl. now rewrite orb_false_r. Qed.

Lemma expenses_update_using s me (r : Expense) :
  rls_using expenses_policies s me UPDATE r = uid_is me (exp_created_by r).
Proof. unfold rls_using. simpl. now rewrite orb_false_r. Qed.

Lemma expenses_update_check s me (r : Expense) :
  rls_check expenses_policies s me UPDATE r = uid_is me (exp_created_by r).
Proof. unfold rls_check. simpl. now rewrite orb_false_r. Qed.

Lemma expenses_delete_using s me (r : Expense) :
  rls_using expenses_policies s me DELETE r = uid_is me (exp_created_by r).
Proof. unfold rls_using. simpl. now rewrite orb_false_r. Qed.

Lemma apartments_insert_check s me (r : Apartment) :
  rls_check apartments_policies s me INSERT r = uid_is me (apt_created_by r).
Proof. unfold rls_check. simpl. now rewrite orb_false_r. Qed.

Lemma apartments_update_using s me (r : Apartment) :
  rls_using apartments_policies s me UPDATE r = uid_is me (apt_created_by r).
Proof. unfold rls_using. simpl. now rewrite orb_false_r. Qed.

Lemma apartments_update_check s me (r : Apartment) :
  rls_check apartments_policies s me UPDATE r = uid_is me (apt_created_by r).
Proof. unfold rls_check. simpl. now rewrite orb_false_r. Qed.

(** Open up one request: either the store is as before, or the statement
    went through and its result is at hand. *)
Ltac step_cases s :=
  unfold exec; cbn [req_cmd req_uid req_now];
  try match goal with
    | |- context [if mem_uuid ?u (auth_users s) then _ else _] =>
        destruct (mem_uuid u (auth_users s)); [reflexivity|]
    end;
  try match goal with
    | |- context [attempt s ?put ?rows] =>
        let E := fresh "E" in
        destruct (attempt_cases s put rows) as [E|(l & Hl & E & Hok')];
        rewrite E; [reflexivity|]
    | |- context [commit s ?s'] =>
        let E := fresh "E" in
        destruct (commit_cases s s') as [E|[E Hok']];
        rewrite E; [reflexivity|]
    end.

Lemma exec_members_untouched (u : uuid) (q : Request) (s : Store) :
  req_uid q <> Some u ->
  filter (fun m => uid_is (Some u) (mem_user_id m))
    (apartment_members (fst (exec q s)))
  = filter (fun m => uid_is (Some u) (mem_user_id m)) (apartment_members s).
Proof.
  destruct q as [me now c]. cbn [req_uid]. intros Hme.
  destruct c; try (rewrite delete_apartment_noop; reflexivity);
    step_cases s; try reflexivity; cbn [apartment_members set_apartment_members].
  - apply (insert_row_untouched apartment_members_policies s me _ r); [|exact Hl].
    intros x Hx. rewrite members_insert_check. now apply (uid_is_other me u).
  - rewrite update_rows_unreachable in Hl by apply members_no_update.
    now injection Hl as <-.
  - apply delete_rows_untouched.
    intros x Hx. rewrite members_delete_using. now apply (uid_is_other me u).
Qed.

Lemma exec_expenses_untouched (u : uuid) (q : Request) (s : Store) :
  req_uid q <> Some u ->
  filter (fun e => uid_is (Some u) (exp_created_by e))
    (expenses (fst (exec q s)))
  = filter (fun e => uid_is (Some u) (exp_created_by e)) (expenses s).
Proof.
  destruct q as [me now c]. cbn [req_uid]. intros Hme.
  destruct c; try (rewrite delete_apartment_noop; reflexivity);
    step_cases s; try reflexivity;
    cbn [expenses set_expenses cascade_expenses set_expense_splits].
  - apply (insert_row_untouched expenses_policies s me _ r); [|exact Hl].
    intros x Hx. rewrite expenses_insert_check.
    now rewrite (uid_is_other me u _ Hme Hx).
  - apply (update_rows_untouched expenses_policies s me _
             (expenses_touch now) cond set); [| |exact Hl].
    + intros x Hx. rewrite expenses_update_using.
      now apply (uid_is_other me u).
    + intros x Hx. rewrite expenses_update_check.
      now apply (uid_is_other me u).
  - apply delete_rows_untouched.
    intros x Hx. rewrite expenses_delete_using. now apply (uid_is_other me u).
Qed.

Lemma exec_apartments_untouched (u : uuid) (q : Request) (s : Store) :
  req_uid q <> Some u ->
  filter (fun a => uid_is (Some u) (apt_created_by a))
    (apartments (fst (exec q s)))
  = filter (fun a => uid_is (Some u) (apt_created_by a)) (apartments s).
Proof.
  destruct q as [me now c]. cbn [req_uid]. intros Hme.
  destruct c; try (rewrite delete_apartment_noop; reflexivity);
    step_cases s; try reflexivity; cbn [apartments set_apartments].
  - apply (insert_row_untouched apartments_policies s me _ r); [|exact Hl].
    intros x Hx. rewrite apartments_insert_check.
    now apply (uid_is_other me u).
  - apply (update_rows_untouched apartments_policies s me _
             (apartments_touch now) cond set); [| |exact Hl].
    + intros x Hx. rewrite apartments_update_using.
      now apply (uid_is_other me u).
    + intros x Hx. rewrite apartments_update_check.
      now apply (uid_is_other me u).
Qed.

(** X1.  Whatever requests other users send, the membership rows of user
    [u] stay exactly as they were: nobody else can enrol [u] in an
    apartment or remove [u] from one, and the apartments listed for [u]
    do not change. *)
Theorem memberships_of_others_untouched (u : uuid) (s : Store)
    (qs : list Request) :
  (forall q, In q qs -> req_uid q <> Some u) ->
  filter (fun m => uid_is (Some u) (mem_user_id m))
    (apartment_members (run s qs))
  = filter (fun m => uid_is (Some u) (mem_user_id m)) (apartment_members s)
  /\ my_apartments (run s qs) (Some u) = my_apartments s (Some u).
Proof.
  intros Hqs.
  assert (Hrows :
            filter (fun m => uid_is (Some u) (mem_user_id m))
              (apartment_members (run s qs))
            = filter (fun m => uid_is (Some u) (mem_user_id m))
                (apartment_members s)).
  { revert s. induction qs as [|q qs IH]; intros s; [reflexivity|].
    cbn [run]. rewrite IH by (intros x Hx; apply Hqs; now right).
    apply exec_members_untouched. apply Hqs. now left. }
  split; [exact Hrows|]. unfold my_apartments. now rewrite Hrows.
Qed.

Lemma memberships_of_others_untouched_witness :
  my_apartments (run Sample.scenario_A Cases.others) (Some Sample.X)
  = [Sample.flat].
Proof.
  assert (Hqs : forall q, In q Cases.others -> req_uid q <> Some Sample.X).
  { intros q Hq. cbn in Hq.
    repeat (destruct Hq as [<-|Hq]; [discriminate|]). destruct Hq. }
  destruct (memberships_of_others_untouched Sample.X Sample.scenario_A
              Cases.others Hqs) as [_ ->].
  reflexivity.
Defined.

(** X2.  Whatever requests other users send, the expenses created by [u]
    stay exactly as they were: only its creator can rewrite or delete an
    expense, and nobody can add one in another user's name. *)
Theorem expenses_of_others_untouched (u : uuid) (s : Store)
    (qs : list Request) :
  (forall q, In q qs -> req_uid q <> Some u) ->
  filter (fun e => uid_is (Some u) (exp_created_by e)) (expenses (run s qs))
  = filter (fun e => uid_is (Some u) (exp_created_by e)) (expenses s).
Proof.
  intros Hqs. revert s. induction qs as [|q qs IH]; intros s; [reflexivity|].
  cbn [run]. rewrite IH by (intros x Hx; apply Hqs; now right).
  apply exec_expenses_untouched. apply Hqs. now left.
Qed.

Lemma expenses_of_others_untouched_witness :
  filter (fun e => uid_is (Some Sample.X) (exp_created_by e))
    (expenses (run Sample.scenario_A Cases.others))
  = [Sample.expense 20%N 10000].
Proof.
  rewrite (expenses_of_others_untouched Sample.X Sample.scenario_A
             Cases.others).
  - reflexivity.
  - intros q Hq. cbn in Hq.
    repeat (destruct Hq as [<-|Hq]; [discriminate|]). destruct Hq.
Defined.

(** X3.  Whatever requests other users send, the apartments created by
    [u] keep their rows exactly as they were: only its creator can rewrite
    an apartment row, nobody can create one in another user's name, and
    nobody can delete one. *)
Theorem apartments_of_others_untouched (u : uuid) (s : Store)
    (qs : list Request) :
  (forall q, In q qs -> req_uid q <> Some u) ->
  filter (fun a => uid_is (Some u) (apt_created_by a))
    (apartments (run s qs))
  = filter (fun a => uid_is (Some u) (apt_created_by a)) (apartments s).
Proof.
  intros Hqs. revert s. induction qs as [|q qs IH]; intros s; [reflexivity|].
  cbn [run]. rewrite IH by (intros x Hx; apply Hqs; now right).
  apply exec_apartments_untouched. apply Hqs. now left.
Qed.

Lemma apartments_of_others_untouched_witness :
  filter (fun a => uid_is (Some Sample.X) (apt_created_by a))
    (apartments (run Sample.scenario_A Cases.others))
  = [Sample.flat_row].
Proof.
  rewrite (apartments_of_others_untouched Sample.X Sample.scenario_A
             Cases.others).
  - reflexivity.
  - intros q Hq. cbn in Hq.
    repeat (destruct Hq as [<-|Hq]; [discriminate|]). destruct Hq.
Defined.

(** ** UPDATE: creators and time stamps *)

Lemma uid_is_same (me : option uuid) (a b : uuid) :
  uid_is me a = true -> uid_is me b = true -> a = b.
Proof.
  destruct me as [u|]; cbn [uid_is]; [|discriminate].
  intros Ha Hb. apply N.eqb_eq in Ha, Hb. congruence.
Qed.

Section Rewritten.
Context {R : Type} (ps : list (Policy R)) (s : Store) (me : option uuid).
Variables (owner : R -> uuid) (stamp : R -> timestamptz).
Variables (trigger : R -> R) (now : timestamptz).
Hypothesis using_owner :
  forall r, rls_using ps s me UPDATE r = uid_is me (owner r).
Hypothesis check_owner :
  forall r, rls_check ps s me UPDATE r = uid_is me (owner r).
Hypothesis trigger_stamp : forall r, stamp (trigger r) = now.

Lemma update_rows_owner cond set (rows rows' : list R) :
  update_rows ps s me trigger cond set rows = Some rows' ->
  map owner rows' = map owner rows.
Proof.
  unfold update_rows. destruct (forallb _ rows) eqn:Hall; [|discriminate].
  intros [= <-]. rewrite forallb_forall in Hall.
  rewrite map_map. apply map_ext_in. intros r Hr.
  specialize (Hall r Hr).
  destruct (cond r && rls_using ps s me UPDATE r) eqn:Hhit; [|reflexivity].
  cbn [negb orb] in Hall. apply andb_prop in Hhit. destruct Hhit as [_ Hu].
  rewrite using_owner in Hu. rewrite check_owner in Hall.
  exact (uid_is_same me _ _ Hall Hu).
Qed.

Lemma update_rows_stamp cond set (rows rows' : list R) (r' : R) :
  update_rows ps s me trigger cond set rows = Some rows' ->
  In r' rows' -> In r' rows \/ stamp r' = now.
Proof.
  unfold update_rows. destruct (forallb _ rows); [|discriminate].
  intros [= <-] Hin. apply in_map_iff in Hin. destruct Hin as (r & <- & Hr).
  destruct (cond r && rls_using ps s me UPDATE r);
    [right; apply trigger_stamp|now left].
Qed.
End Rewritten.

(** X4.  An UPDATE of [expenses] or of [apartments] never changes who
    created a row, whatever its SET says, and a row it leaves behind is
    either as it was or stamped with the time of the request. *)
Theorem update_keeps_creator_and_stamps (me : option uuid)
    (now : timestamptz) (s : Store) :
  (forall cond set,
      let s' := fst (exec {| req_uid := me; req_now := now;
                             req_cmd := UpdateExpense cond set |} s) in
      map exp_created_by (expenses s') = map exp_created_by (expenses s)
      /\ forall e, In e (expenses s') ->
                   In e (expenses s) \/ exp_updated_at e = now)
  /\ (forall cond set,
        let s' := fst (exec {| req_uid := me; req_now := now;
                               req_cmd := UpdateApartment cond set |} s) in
        map apt_created_by (apartments s') = map apt_created_by (apartments s)
        /\ forall a, In a (apartments s') ->
                     In a (apartments s) \/ apt_updated_at a = now).
Proof.
  split; intros cond set s'; subst s'; unfold exec;
    cbn [req_cmd req_uid req_now].
  - destruct (attempt_cases s set_expenses
                (update_rows expenses_policies s me (expenses_touch now)
                   cond set (expenses s))) as [E|(l & Hl & E & _)];
      rewrite E; [split; [reflexivity|now left]|].
    cbn [expenses set_expenses]. split.
    + apply (update_rows_owner expenses_policies s me exp_created_by
               (expenses_touch now) (expenses_update_using s me)
               (expenses_update_check s me) cond set _ _ Hl).
    + intros e He.
      apply (update_rows_stamp expenses_policies s me exp_updated_at
               (expenses_touch now) now (fun _ => eq_refl) cond set _ _ e Hl He).
  - destruct (attempt_cases s set_apartments
                (update_rows apartments_policies s me (apartments_touch now)
                   cond set (apartments s))) as [E|(l & Hl & E & _)];
      rewrite E; [split; [reflexivity|now left]|].
    cbn [apartments set_apartments]. split.
    + apply (update_rows_owner apartments_policies s me apt_created_by
               (apartments_touch now) (apartments_update_using s me)
               (apartments_update_check s me) cond set _ _ Hl).
    + intros a Ha.
      apply (update_rows_stamp apartments_policies s me apt_updated_at
               (apartments_touch now) now (fun _ => eq_refl) cond set _ _ a Hl Ha).
Qed.

(** ** Splits *)

Lemma mem_uuid_spec (x : uuid) (l : list uuid) :
  mem_uuid x l = true <-> In x l.
Proof.
  unfold mem_uuid. rewrite existsb_exists. split.
  - intros (y & Hy & E). apply N.eqb_eq in E. now subst y.
  - intros H. exists x. split; [exact H|apply N.eqb_refl].
Qed.

Lemma mem_ids_filter (i : uuid) (f : Expense -> bool) (l : list Expense) :
  mem_uuid i (map exp_id (filter f l)) = true <->
  exists e, In e l /\ f e = true /\ exp_id e = i.
Proof.
  rewrite mem_uuid_spec, in_map_iff. split.
  - intros (e & Hid & He). apply filter_In in He. destruct He as [He Hf].
    now exists e.
  - intros (e & He & Hf & Hid). exists e. split; [exact Hid|].
    apply filter_In. now split.
Qed.

Section UniqueRows.
Context {A K : Type} (eqb : K -> K -> bool) (key : A -> K).
Hypothesis eqb_spec : forall x y, eqb x y = true <-> x = y.

(** Under a UNIQUE key two stored rows with the same key are one row. *)
Lemma unique_key_inj (l : list A) (a b : A) :
  uniqueb eqb (map key l) = true ->
  In a l -> In b l -> key a = key b -> a = b.
Proof.
  induction l as [|x l IH]; intros Hu Ha Hb Hk; [contradiction|].
  cbn [map uniqueb] in Hu. apply andb_prop in Hu. destruct Hu as [Hx Hl].
  apply negb_true_iff in Hx.
  assert (Hrefl : forall k, eqb k k = true) by (intros k; now apply eqb_spec).
  destruct Ha as [->|Ha], Hb as [->|Hb].
  - reflexivity.
  - pose proof (existsb_key_false eqb key eqb_spec _ _ _ Hx Hb) as E.
    rewrite <- Hk, Hrefl in E. discriminate.
  - pose proof (existsb_key_false eqb key eqb_spec _ _ _ Hx Ha) as E.
    rewrite Hk, Hrefl in E. discriminate.
  - now apply IH.
Qed.

Lemma existsb_filter_false (k : K) (f : A -> bool) (l : list A) :
  existsb (eqb k) (map key l) = false ->
  existsb (eqb k) (map key (filter f l)) = false.
Proof.
  induction l as [|x l IH]; [reflexivity|].
  cbn [map existsb filter]. intros H. apply orb_false_iff in H.
  destruct H as [Hx Hl].
  destruct (f x); cbn [map existsb]; [rewrite Hx|]; now apply IH.
Qed.

(** Removing rows keeps a key UNIQUE. *)
Lemma uniqueb_filter (f : A -> bool) (l : list A) :
  uniqueb eqb (map key l) = true ->
  uniqueb eqb (map key (filter f l)) = true.
Proof.
  induction l as [|x l IH]; [reflexivity|].
  cbn [map uniqueb filter]. intros H. apply andb_prop in H.
  destruct H as [Hx Hl]. apply negb_true_iff in Hx.
  destruct (f x); [|now apply IH].
  cbn [map uniqueb]. rewrite (existsb_filter_false _ f _ Hx).
  now rewrite IH.
Qed.
End UniqueRows.

Lemma N_eqb_spec (x y : uuid) : N.eqb x y = true <-> x = y.
Proof. apply N.eqb_eq. Qed.

Lemma forallb_filter {A : Type} (P f : A -> bool) (l : list A) :
  forallb P l = true -> forallb P (filter f l) = true.
Proof.
  rewrite !forallb_forall. intros H x Hx.
  apply filter_In in Hx. now apply H.
Qed.

Lemma expense_ids_unique (s : Store) :
  store_ok s = true -> uniqueb N.eqb (map exp_id (expenses s)) = true.
Proof.
  intros Hok. unfold store_ok, expenses_ok in Hok. split_andb. assumption.
Qed.

(** An expense created by [u] is not among those another requester may
    reach. *)
Lemma not_my_expense (s : Store) (me : option uuid) (u i : uuid)
    (f : Expense -> bool) :
  store_ok s = true -> me <> Some u ->
  (forall e, f e = true -> uid_is me (exp_created_by e) = true) ->
  mem_uuid i (my_expenses s (Some u)) = true ->
  mem_uuid i (map exp_id (filter f (expenses s))) = false.
Proof.
  intros Hok Hme Hf Hu.
  destruct (mem_uuid i (map exp_id (filter f (expenses s)))) eqn:Hi;
    [|reflexivity].
  apply mem_ids_filter in Hi. destruct Hi as (e2 & He2 & Hf2 & Hid2).
  unfold my_expenses in Hu.
  apply mem_ids_filter in Hu. destruct Hu as (e1 & He1 & Hu1 & Hid1).
  assert (e1 = e2).
  { apply (unique_key_inj N.eqb exp_id N_eqb_spec (expenses s));
      [now apply expense_ids_unique|assumption|assumption|congruence]. }
  subst e2. apply Hf in Hf2.
  rewrite (uid_is_other me u _ Hme Hu1) in Hf2. discriminate.
Qed.

Lemma splits_using (s : Store) me (c : Cmd) (r : Split) :
  c = INSERT \/ c = UPDATE \/ c = DELETE ->
  rls_using expense_splits_policies s me c r
  = mem_uuid (spl_expense_id r) (my_expenses s me)
  /\ rls_check expense_splits_policies s me c r
     = mem_uuid (spl_expense_id r) (my_expenses s me).
Proof.
  intros [-> | [-> | ->]]; unfold rls_using, rls_check, my_expenses; simpl;
    now rewrite orb_false_r.
Qed.

(** X6.  In a store whose constraints hold, no request of another user
    touches the splits of an expense that [u] created: they can be
    inserted, rewritten and deleted by the creator of the expense alone,
    and the cascade of a DELETE on [expenses] only reaches the splits of
    the requester's own expenses. *)
Theorem splits_of_others_untouched (u : uuid) (q : Request) (s : Store) :
  store_ok s = true ->
  req_uid q <> Some u ->
  filter (fun p => mem_uuid (spl_expense_id p) (my_expenses s (Some u)))
    (expense_splits (fst (exec q s)))
  = filter (fun p => mem_uuid (spl_expense_id p) (my_expenses s (Some u)))
      (expense_splits s).
Proof.
  intros Hok. destruct q as [me now c]. cbn [req_uid]. intros Hme.
  assert (Hout : forall c x,
             c = INSERT \/ c = UPDATE \/ c = DELETE ->
             mem_uuid (spl_expense_id x) (my_expenses s (Some u)) = true ->
             rls_using expense_splits_policies s me c x = false
             /\ rls_check expense_splits_policies s me c x = false).
  { intros c0 x Hc Hx. destruct (splits_using s me c0 x Hc) as [-> ->].
    assert (mem_uuid (spl_expense_id x) (my_expenses s me) = false)
      by (apply (not_my_expense s me u); auto).
    now split. }
  destruct c; try (rewrite delete_apartment_noop; reflexivity);
    step_cases s; try reflexivity;
    cbn [expense_splits set_expenses set_expense_splits cascade_expenses].
  - (* DeleteExpense: the cascade *)
    apply filter_filter_keep. intros x Hx. apply negb_true_iff.
    apply (not_my_expense s me u); auto.
    intros e He. unfold delete_hits in He. apply andb_prop in He.
    destruct He as [_ He]. now rewrite expenses_delete_using in He.
  - apply (insert_row_untouched expense_splits_policies s me _ r);
      [|exact Hl].
    intros x Hx. apply Hout; auto.
  - apply (update_rows_untouched expense_splits_policies s me _
             (fun r => r) cond set); [| |exact Hl];
      intros x Hx; apply Hout; auto.
  - apply delete_rows_untouched. intros x Hx. apply Hout; auto.
Qed.

Lemma splits_of_others_untouched_witness :
  filter
    (fun p =>
       mem_uuid (spl_expense_id p)
         (my_expenses Sample.scenario_A (Some Sample.X)))
    (expense_splits
       (fst (exec (Sample.as_user Sample.Y (DeleteSplit (fun _ => true)))
               Sample.scenario_A)))
  = expense_splits Sample.scenario_A.
Proof.
  rewrite (splits_of_others_untouched Sample.X
             (Sample.as_user Sample.Y (DeleteSplit (fun _ => true)))
             Sample.scenario_A eq_refl).
  - reflexivity.
  - discriminate.
Defined.

(** ** Requests without an identity *)

Lemma set_apartment_members_same (s : Store) :
  set_apartment_members s (apartment_members s) = s.
Proof. now destruct s. Qed.

Lemma set_expenses_same (s : Store) : set_expenses s (expenses s) = s.
Proof. now destruct s. Qed.

Lemma set_expense_splits_same (s : Store) :
  set_expense_splits s (expense_splits s) = s.
Proof. now destruct s. Qed.

Lemma set_settlements_same (s : Store) :
  set_settlements s (settlements s) = s.
Proof. now destruct s. Qed.

Lemma cascade_expenses_nil (s : Store) : cascade_expenses [] s = s.
Proof.
  unfold cascade_expenses. rewrite filter_all by reflexivity.
  apply set_expense_splits_same.
Qed.

Lemma commit_same (s : Store) : fst (commit s s) = s.
Proof. unfold commit. now destruct (store_ok s). Qed.

Lemma my_expenses_anonymous (s : Store) : my_expenses s None = [].
Proof. unfold my_expenses. now rewrite filter_none. Qed.

Lemma splits_anonymous (s : Store) (c : Cmd) (r : Split) :
  c = INSERT \/ c = UPDATE \/ c = DELETE ->
  rls_using expense_splits_policies s None c r = false
  /\ rls_check expense_splits_policies s None c r = false.
Proof.
  intros Hc. destruct (splits_using s None c r Hc) as [-> ->].
  now rewrite my_expenses_anonymous.
Qed.

(** X7.  A request that carries no identity and is not a sign-up leaves
    the store as it was: every INSERT is refused and no row is within
    reach of an UPDATE or a DELETE. *)
Theorem anonymous_changes_nothing (now : timestamptz) (c : Command)
    (s : Store) :
  (forall u, c <> SignUp u) ->
  fst (exec {| req_uid := None; req_now := now; req_cmd := c |} s) = s.
Proof.
  intros Hc.
  destruct c; try (apply delete_apartment_noop);
    unfold exec; cbn [req_cmd req_uid req_now].
  - now contradiction (Hc u).
  - reflexivity.
  - rewrite update_rows_unreachable by reflexivity.
    cbn [attempt]. rewrite set_apartments_same. apply commit_same.
  - reflexivity.
  - rewrite update_rows_unreachable by reflexivity.
    cbn [attempt]. rewrite set_apartment_members_same. apply commit_same.
  - rewrite delete_rows_unreachable by reflexivity.
    rewrite set_apartment_members_same. apply commit_same.
  - reflexivity.
  - rewrite update_rows_unreachable by reflexivity.
    cbn [attempt]. rewrite set_expenses_same. apply commit_same.
  - rewrite (filter_none (delete_hits expenses_policies s None cond))
      by (intros r; now apply delete_hits_unreachable).
    rewrite delete_rows_unreachable by reflexivity.
    cbn [map]. rewrite cascade_expenses_nil, set_expenses_same.
    apply commit_same.
  - unfold insert_row.
    rewrite (proj2 (splits_anonymous s INSERT r (or_introl eq_refl))).
    reflexivity.
  - rewrite update_rows_unreachable
      by (intros x; apply splits_anonymous; auto).
    cbn [attempt]. rewrite set_expense_splits_same. apply commit_same.
  - rewrite delete_rows_unreachable
      by (intros x; apply splits_anonymous; auto).
    rewrite set_expense_splits_same. apply commit_same.
  - reflexivity.
  - rewrite update_rows_unreachable by reflexivity.
    cbn [attempt]. rewrite set_settlements_same. apply commit_same.
  - rewrite delete_rows_unreachable by reflexivity.
    rewrite set_settlements_same. apply commit_same.
Qed.

Lemma anonymous_changes_nothing_witness :
  fst (exec {| req_uid := None; req_now := 2000%N;
               req_cmd := DeleteExpense (fun _ => true) |}
         Sample.scenario_A)
  = Sample.scenario_A.
Proof.
  apply (anonymous_changes_nothing 2000%N (DeleteExpense (fun _ => true))
           Sample.scenario_A).
  discriminate.
Defined.

(** ** Deleting expenses *)

Lemma removed_or_kept (s : Store) me cond (i : uuid) :
  mem_uuid i (map exp_id (expenses s)) = true ->
  mem_uuid i
    (map exp_id (filter (delete_hits expenses_policies s me cond)
                   (expenses s))) = false ->
  mem_uuid i
    (map exp_id (delete_rows expenses_policies s me cond (expenses s)))
  = true.
Proof.
  intros Hin Hgone. apply mem_uuid_spec in Hin.
  apply in_map_iff in Hin. destruct Hin as (e & Hid & He).
  apply mem_uuid_spec. apply in_map_iff. exists e. split; [exact Hid|].
  unfold delete_rows. apply filter_In. split; [exact He|].
  destruct (delete_hits expenses_policies s me cond e) eqn:Hhit;
    [|reflexivity].
  assert (mem_uuid i
            (map exp_id (filter (delete_hits expenses_policies s me cond)
                           (expenses s))) = true).
  { apply mem_ids_filter. now exists e. }
  congruence.
Qed.

(** In a store whose constraints hold a DELETE on [expenses], read as its
    policy states, goes through: the rows within the requester's reach
    that meet the condition go, their splits go with them, and every
    split that is left still belongs to an expense that is left. *)
Lemma exec_delete_expense (me : option uuid) (now : timestamptz)
    (cond : Expense -> bool) (s : Store) :
  store_ok s = true ->
  let q := {| req_uid := me; req_now := now;
              req_cmd := DeleteExpense cond |} in
  snd (exec q s) = Done
  /\ expenses (fst (exec q s))
     = filter (fun e => negb (cond e && uid_is me (exp_created_by e)))
         (expenses s)
  /\ expense_splits (fst (exec q s))
     = filter
         (fun p =>
            negb (mem_uuid (spl_expense_id p)
                    (map exp_id
                       (filter
                          (fun e => cond e && uid_is me (exp_created_by e))
                          (expenses s)))))
         (expense_splits s)
  /\ forall p, In p (expense_splits (fst (exec q s))) ->
               mem_uuid (spl_expense_id p)
                 (map exp_id (expenses (fst (exec q s)))) = true.
Proof.
  intros Hok q. subst q. unfold exec. cbn [req_cmd req_uid req_now].
  set (gone := map exp_id
                 (filter (delete_hits expenses_policies s me cond)
                    (expenses s))).
  set (s' := cascade_expenses gone
               (set_expenses s
                  (delete_rows expenses_policies s me cond (expenses s)))).
  assert (Hhits : forall e, delete_hits expenses_policies s me cond e
                            = cond e && uid_is me (exp_created_by e)).
  { intros e. unfold delete_hits. now rewrite expenses_delete_using. }
  pose proof Hok as Hparts. unfold store_ok in Hparts. split_andb.
  assert (Hexp : expenses_ok s' = true).
  { match goal with H : expenses_ok s = true |- _ =>
      unfold expenses_ok in H; apply andb_prop in H; destruct H as [Hu Hall]
    end.
    unfold expenses_ok. apply andb_true_intro. split.
    - now apply (uniqueb_filter N.eqb exp_id).
    - now apply forallb_filter. }
  assert (Hspl : expense_splits_ok s' = true).
  { match goal with H : expense_splits_ok s = true |- _ =>
      unfold expense_splits_ok in H; apply andb_prop in H;
      destruct H as [Hu Hall]; apply andb_prop in Hu;
      destruct Hu as [Hu1 Hu2]
    end.
    unfold expense_splits_ok.
    apply andb_true_intro. split; [apply andb_true_intro; split|].
    - now apply (uniqueb_filter N.eqb spl_id).
    - now apply (uniqueb_filter pair_eqb
                   (fun p => (spl_expense_id p, spl_user_id p))).
    - apply forallb_forall. intros p Hp.
      apply filter_In in Hp. destruct Hp as [Hp Hkeep].
      apply negb_true_iff in Hkeep.
      rewrite forallb_forall in Hall. specialize (Hall p Hp).
      apply andb_prop in Hall. destruct Hall as [Hall Hpos].
      apply andb_prop in Hall. destruct Hall as [Hall Hdec].
      apply andb_prop in Hall. destruct Hall as [Hfk Husr].
      change (auth_users s') with (auth_users s).
      rewrite Hpos, Hdec, Husr, !andb_true_r.
      now apply removed_or_kept. }
  assert (Hok' : store_ok s' = true).
  { unfold store_ok. rewrite Hexp, Hspl.
    change (apartments_ok s') with (apartments_ok s).
    change (apartment_members_ok s') with (apartment_members_ok s).
    change (settlements_ok s') with (settlements_ok s).
    repeat match goal with H : _ = true |- _ => rewrite H; clear H end.
    reflexivity. }
  unfold commit. fold s'. rewrite Hok'. cbn [fst snd].
  split; [reflexivity|]. split; [|split].
  - subst s'. cbn. unfold delete_rows. apply filter_ext.
    intros e. now rewrite Hhits.
  - subst s' gone. cbn.
    rewrite (filter_ext (delete_hits expenses_policies s me cond)
               (fun e => cond e && uid_is me (exp_created_by e)) Hhits).
    reflexivity.
  - intros p Hp. unfold store_ok, expense_splits_ok in Hok'. split_andb.
    match goal with
    | H : forallb _ (expense_splits s') = true |- _ =>
        rewrite forallb_forall in H; specialize (H p Hp)
    end.
    split_andb. assumption.
Qed.

(** ** Deleting and adding membership rows *)

Lemma existsb_filter_keep {A : Type} (P g : A -> bool) (l : list A) :
  (forall x, P x = true -> g x = true) ->
  existsb P (filter g l) = existsb P l.
Proof.
  intros H. induction l as [|x l IH]; [reflexivity|].
  cbn [filter existsb]. destruct (P x) eqn:Ep.
  - rewrite (H x Ep). cbn [existsb]. now rewrite Ep.
  - destruct (g x); cbn [existsb]; now rewrite ?Ep, IH.
Qed.

(** In a store whose constraints hold a DELETE on [apartment_members],
    read as its policy states, goes through and removes the rows of the
    requester that meet the condition. *)
Lemma exec_delete_member (u : uuid) (now : timestamptz)
    (cond : Member -> bool) (s : Store) :
  store_ok s = true ->
  exec {| req_uid := Some u; req_now := now; req_cmd := DeleteMember cond |} s
  = (set_apartment_members s
       (filter (fun m => negb (cond m && N.eqb u (mem_user_id m)))
          (apartment_members s)),
     Done).
Proof.
  intros Hok.
  set (left_rows :=
         filter (fun m => negb (cond m && N.eqb u (mem_user_id m)))
           (apartment_members s)).
  set (s' := set_apartment_members s left_rows).
  assert (Hrows : delete_rows apartment_members_policies s (Some u) cond
                    (apartment_members s) = left_rows).
  { unfold delete_rows, left_rows. apply filter_ext. intros m.
    unfold delete_hits. now rewrite members_delete_using. }
  assert (Hok' : store_ok s' = true).
  { pose proof Hok as Hparts. unfold store_ok in Hparts. split_andb.
    assert (Hmem : apartment_members_ok s' = true).
    { match goal with H : apartment_members_ok s = true |- _ =>
        unfold apartment_members_ok in H; apply andb_prop in H;
        destruct H as [Hu Hall]; apply andb_prop in Hu;
        destruct Hu as [Hu1 Hu2]
      end.
      unfold apartment_members_ok.
      apply andb_true_intro. split; [apply andb_true_intro; split|].
      - now apply (uniqueb_filter N.eqb mem_id).
      - now apply (uniqueb_filter pair_eqb
                     (fun m => (mem_apartment_id m, mem_user_id m))).
      - now apply forallb_filter. }
    unfold store_ok. rewrite Hmem.
    change (apartments_ok s') with (apartments_ok s).
    change (expenses_ok s') with (expenses_ok s).
    change (expense_splits_ok s') with (expense_splits_ok s).
    change (settlements_ok s') with (settlements_ok s).
    repeat match goal with H : _ = true |- _ => rewrite H; clear H end.
    reflexivity. }
  unfold exec. cbn [req_cmd req_uid req_now].
  rewrite Hrows. fold s'. unfold commit. now rewrite Hok'.
Qed.

(** A key that is new to a list keeps it free of duplicates. *)
Lemma uniqueb_snoc {A : Type} (eqb : A -> A -> bool) (l : list A) (x : A) :
  uniqueb eqb l = true ->
  (forall y, In y l -> eqb y x = false) ->
  uniqueb eqb (l ++ [x]) = true.
Proof.
  induction l as [|y l IH]; intros Hu Hnew; [reflexivity|].
  cbn [app uniqueb] in *. apply andb_prop in Hu. destruct Hu as [Hy Hl].
  apply negb_true_iff in Hy. rewrite existsb_app, Hy. cbn [existsb].
  rewrite (Hnew y) by now left. cbn [orb negb andb].
  apply IH; [exact Hl|]. intros z Hz. apply Hnew. now right.
Qed.

(** In a store whose constraints hold, an INSERT into
    [apartment_members] by the user the row names goes through when the
    row's id is new, the user is no member of the apartment yet, and
    apartment and user exist. *)
Lemma exec_insert_member (now : timestamptz) (r : Member) (s : Store) :
  store_ok s = true ->
  mem_uuid (mem_id r) (map mem_id (apartment_members s)) = false ->
  is_member s (mem_apartment_id r) (mem_user_id r) = false ->
  mem_uuid (mem_apartment_id r) (map apt_id (apartments s)) = true ->
  mem_uuid (mem_user_id r) (auth_users s) = true ->
  exec {| req_uid := Some (mem_user_id r); req_now := now;
          req_cmd := InsertMember r |} s
  = (set_apartment_members s (apartment_members s ++ [r]), Done).
Proof.
  intros Hok Hid Hnew Hapt Husr.
  set (s' := set_apartment_members s (apartment_members s ++ [r])).
  assert (Hok' : store_ok s' = true).
  { pose proof Hok as Hparts. unfold store_ok in Hparts. split_andb.
    assert (Hmem : apartment_members_ok s' = true).
    { match goal with H : apartment_members_ok s = true |- _ =>
        unfold apartment_members_ok in H; apply andb_prop in H;
        destruct H as [Hu Hall]; apply andb_prop in Hu;
        destruct Hu as [Hu1 Hu2]
      end.
      unfold apartment_members_ok.
      cbn [apartment_members s' set_apartment_members].
      change (apartments s') with (apartments s).
      change (auth_users s') with (auth_users s).
      rewrite !map_app, forallb_app. cbn [map forallb].
      rewrite Hall, Hapt, Husr. cbn [andb].
      rewrite andb_true_r.
      apply andb_true_intro. split.
      - apply uniqueb_snoc; [exact Hu1|]. intros y Hy.
        destruct (N.eqb_spec y (mem_id r)) as [->|]; [|reflexivity].
        apply mem_uuid_spec in Hy. congruence.
      - apply uniqueb_snoc; [exact Hu2|]. intros p Hp.
        apply in_map_iff in Hp. destruct Hp as (m & <- & Hm).
        destruct (pair_eqb (mem_apartment_id m, mem_user_id m)
                    (mem_apartment_id r, mem_user_id r)) eqn:E;
          [|reflexivity].
        unfold pair_eqb in E. cbn [fst snd] in E.
        assert (Hin : is_member s (mem_apartment_id r) (mem_user_id r)
                      = true).
        { unfold is_member. apply existsb_exists. now exists m. }
        congruence. }
    unfold store_ok. rewrite Hmem.
    change (apartments_ok s') with (apartments_ok s).
    change (expenses_ok s') with (expenses_ok s).
    change (expense_splits_ok s') with (expense_splits_ok s).
    change (settlements_ok s') with (settlements_ok s).
    repeat match goal with H : _ = true |- _ => rewrite H; clear H end.
    reflexivity. }
  unfold exec. cbn [req_cmd req_uid req_now]. unfold insert_row.
  rewrite members_insert_check. cbn [uid_is]. rewrite N.eqb_refl.
  cbn [attempt]. fold s'. unfold commit. now rewrite Hok'.
Qed.

(* ================================================================== *)
(** * The database as PostgreSQL runs it *)

(** ** Statements that stop with 42P17 *)

(** A statement that reads columns of its table stops, whatever the
    table and the command: the SELECT policy of every table selects from
    [apartment_members], whose own SELECT policy does so too. *)
Lemma reading_raises (t : Postgres.Table) (c : Cmd) :
  Postgres.raises t c true = true.
Proof. destruct t, c; reflexivity. Qed.

Lemma select_raises {R : Type} (t : Postgres.Table)
    (from : list Postgres.Table) (ps : list (Policy R)) (s : Store)
    (me : option uuid) (cond : R -> bool) (rows : list R) :
  Postgres.select (t :: from) ps s me cond rows = None.
Proof.
  unfold Postgres.select. cbn [existsb]. now rewrite reading_raises.
Qed.

Lemma exec_reading (q : Request) (s : Store) :
  Postgres.target (req_cmd q) <> None ->
  Postgres.exec true q s = (s, Postgres.InfiniteRecursion).
Proof.
  intros Ht. unfold Postgres.exec.
  destruct (Postgres.target (req_cmd q)) as [[t c]|]; [|contradiction].
  now rewrite reading_raises.
Qed.

(** A statement without WHERE clause and RETURNING list is answered as
    the statement with the condition that holds of every row. *)
Lemma exec_plain_insert_member (me : option uuid) (now : timestamptz)
    (r : Member) (s : Store) :
  Postgres.exec false
    {| req_uid := me; req_now := now; req_cmd := InsertMember r |} s
  = Postgres.answered
      (exec {| req_uid := me; req_now := now; req_cmd := InsertMember r |} s).
Proof. reflexivity. Qed.

Lemma exec_plain_delete_expense (me : option uuid) (now : timestamptz)
    (cond : Expense -> bool) (s : Store) :
  Postgres.exec false
    {| req_uid := me; req_now := now; req_cmd := DeleteExpense cond |} s
  = Postgres.answered
      (exec {| req_uid := me; req_now := now;
               req_cmd := DeleteExpense (fun _ => true) |} s).
Proof. reflexivity. Qed.

Lemma exec_plain_delete_member (me : option uuid) (now : timestamptz)
    (cond : Member -> bool) (s : Store) :
  Postgres.exec false
    {| req_uid := me; req_now := now; req_cmd := DeleteMember cond |} s
  = Postgres.answered
      (exec {| req_uid := me; req_now := now;
               req_cmd := DeleteMember (fun _ => true) |} s).
Proof. reflexivity. Qed.

(** ** JavaScript strings *)

Section CaseTable.
Variable upper_of : N -> list N.
Hypothesis table : JS.case_table upper_of.

Lemma upper_of_nonempty (c : N) : upper_of c <> [].
Proof.
  destruct (JS.is_white_space c) eqn:E.
  - rewrite (JS.space_kept _ table c E). discriminate.
  - apply (JS.ink_kept _ table c E).
Qed.

Lemma toUpperCase_cons (c : N) (s : JS.str) :
  JS.toUpperCase upper_of (c :: s)
  = upper_of c ++ JS.toUpperCase upper_of s.
Proof. reflexivity. Qed.

Lemma toUpperCase_truthy (s : JS.str) :
  JS.truthy (JS.toUpperCase upper_of s) = JS.truthy s.
Proof.
  destruct s as [|c s]; [reflexivity|]. rewrite toUpperCase_cons.
  pose proof (upper_of_nonempty c) as Hc.
  destruct (upper_of c); [contradiction|reflexivity].
Qed.

Lemma toUpperCase_idem (s : JS.str) :
  JS.toUpperCase upper_of (JS.toUpperCase upper_of s)
  = JS.toUpperCase upper_of s.
Proof.
  induction s as [|c s IH]; [reflexivity|].
  rewrite toUpperCase_cons. unfold JS.toUpperCase at 1.
  rewrite flat_map_app. fold (JS.toUpperCase upper_of).
  change (flat_map upper_of (JS.toUpperCase upper_of s))
    with (JS.toUpperCase upper_of (JS.toUpperCase upper_of s)).
  now rewrite IH, (JS.upper_is_upper _ table).
Qed.

Lemma trimStart_toUpperCase (s : JS.str) :
  JS.trimStart (JS.toUpperCase upper_of s)
  = JS.toUpperCase upper_of (JS.trimStart s).
Proof.
  induction s as [|c s IH]; [reflexivity|].
  rewrite toUpperCase_cons. cbn [JS.trimStart].
  destruct (JS.is_white_space c) eqn:E.
  - rewrite (JS.space_kept _ table c E). cbn [app JS.trimStart].
    now rewrite E.
  - destruct (JS.ink_kept _ table c E) as [Hne Hink].
    rewrite toUpperCase_cons.
    destruct (upper_of c) as [|d l]; [contradiction|].
    cbn [forallb] in Hink. apply andb_prop in Hink.
    destruct Hink as [Hd _]. apply negb_true_iff in Hd.
    cbn [app JS.trimStart]. now rewrite Hd.
Qed.

Lemma trimEnd_ink (l : JS.str) :
  forallb (fun d => negb (JS.is_white_space d)) l = true ->
  JS.trimEnd l = l.
Proof.
  induction l as [|c l IH]; intros H; [reflexivity|].
  cbn [forallb] in H. apply andb_prop in H. destruct H as [Hc Hl].
  apply negb_true_iff in Hc. cbn [JS.trimEnd]. rewrite (IH Hl).
  destruct l; [now rewrite Hc|reflexivity].
Qed.

Lemma trimEnd_app (l r : JS.str) :
  JS.trimEnd (l ++ r)
  = match JS.trimEnd r with
    | [] => JS.trimEnd l
    | _ :: _ => l ++ JS.trimEnd r
    end.
Proof.
  induction l as [|c l IH].
  - cbn [app]. now destruct (JS.trimEnd r).
  - cbn [app JS.trimEnd]. rewrite IH.
    destruct (JS.trimEnd r) as [|x r']; [reflexivity|].
    now destruct l.
Qed.

Lemma trimEnd_toUpperCase (s : JS.str) :
  JS.trimEnd (JS.toUpperCase upper_of s)
  = JS.toUpperCase upper_of (JS.trimEnd s).
Proof.
  induction s as [|c s IH]; [reflexivity|].
  rewrite toUpperCase_cons, trimEnd_app, IH. cbn [JS.trimEnd].
  destruct (JS.trimEnd s) as [|x t].
  - cbn [JS.toUpperCase flat_map].
    destruct (JS.is_white_space c) eqn:E.
    + rewrite (JS.space_kept _ table c E). cbn [JS.trimEnd].
      now rewrite E.
    + destruct (JS.ink_kept _ table c E) as [_ Hink].
      rewrite (trimEnd_ink _ Hink). cbn [JS.toUpperCase flat_map].
      now rewrite app_nil_r.
  - rewrite (toUpperCase_cons c). rewrite (toUpperCase_cons x).
    pose proof (upper_of_nonempty x) as Hx.
    destruct (upper_of x); [contradiction|reflexivity].
Qed.

Lemma trim_toUpperCase (s : JS.str) :
  JS.trim (JS.toUpperCase upper_of s) = JS.toUpperCase upper_of (JS.trim s).
Proof.
  unfold JS.trim. now rewrite trimStart_toUpperCase, trimEnd_toUpperCase.
Qed.
End CaseTable.

Lemma trimEnd_idem (s : JS.str) : JS.trimEnd (JS.trimEnd s) = JS.trimEnd s.
Proof.
  induction s as [|c s IH]; [reflexivity|]. cbn [JS.trimEnd].
  destruct (JS.trimEnd s) as [|d t] eqn:E.
  - destruct (JS.is_white_space c) eqn:Ec; [reflexivity|].
    cbn [JS.trimEnd]. now rewrite Ec.
  - change (JS.trimEnd (c :: d :: t))
      with (match JS.trimEnd (d :: t) with
            | [] => if JS.is_white_space c then [] else [c]
            | t' => c :: t'
            end).
    now rewrite IH.
Qed.

(** A string trimmed at the start is empty or starts with a code point
    that is not white space. *)
Lemma trimStart_head (s : JS.str) :
  match JS.trimStart s with
  | [] => True
  | c :: _ => JS.is_white_space c = false
  end.
Proof.
  induction s as [|c s IH]; [exact I|]. cbn [JS.trimStart].
  destruct (JS.is_white_space c) eqn:Ec; [exact IH|exact Ec].
Qed.

Lemma trimStart_trim (s : JS.str) : JS.trimStart (JS.trim s) = JS.trim s.
Proof.
  unfold JS.trim. pose proof (trimStart_head s) as H.
  destruct (JS.trimStart s) as [|c t]; [reflexivity|].
  cbn [JS.trimEnd]. destruct (JS.trimEnd t); rewrite ?H;
    cbn [JS.trimStart]; now rewrite H.
Qed.

Lemma trim_idem (s : JS.str) : JS.trim (JS.trim s) = JS.trim s.
Proof.
  unfold JS.trim at 1. rewrite trimStart_trim. unfold JS.trim.
  apply trimEnd_idem.
Qed.

(** The table of the Latin-1 range is a case table. *)
Lemma below_256 (P : N -> Prop) :
  (forall k, (k < 256)%nat -> P (N.of_nat k)) ->
  forall c, (c < 256)%N -> P c.
Proof.
  intros H c Hc. rewrite <- (N2Nat.id c). apply H. lia.
Qed.

Lemma latin1_upper_high (c : N) :
  (c <? 256)%N = false -> JS.latin1_upper c = [c].
Proof. intros H. unfold JS.latin1_upper. now rewrite H. Qed.

Lemma latin1_case_table : JS.case_table JS.latin1_upper.
Proof.
  split.
  - intros c. destruct (c <? 256)%N eqn:E.
    + apply N.ltb_lt in E. revert c E.
      apply (below_256
               (fun c => JS.is_white_space c = true
                         -> JS.latin1_upper c = [c])).
      intros k Hk.
      do 256 (destruct k as [|k];
              [vm_compute; intros H; first [discriminate H|reflexivity]|]).
      exfalso; lia.
    + intros _. now apply latin1_upper_high.
  - intros c. destruct (c <? 256)%N eqn:E.
    + apply N.ltb_lt in E. revert c E.
      apply (below_256
               (fun c =>
                  JS.is_white_space c = false ->
                  JS.latin1_upper c <> []
                  /\ forallb (fun d => negb (JS.is_white_space d))
                       (JS.latin1_upper c) = true)).
      intros k Hk.
      do 256 (destruct k as [|k];
              [vm_compute; intros H;
               first [discriminate H|split; [discriminate|reflexivity]]|]).
      exfalso; lia.
    + intros Hc. rewrite (latin1_upper_high c E). split; [discriminate|].
      cbn [forallb]. now rewrite Hc.
  - intros c. destruct (c <? 256)%N eqn:E.
    + apply N.ltb_lt in E. revert c E.
      apply (below_256
               (fun c => flat_map JS.latin1_upper (JS.latin1_upper c)
                         = JS.latin1_upper c)).
      intros k Hk.
      do 256 (destruct k as [|k]; [vm_compute; reflexivity|]).
      exfalso; lia.
    + rewrite (latin1_upper_high c E). cbn [flat_map].
      rewrite (latin1_upper_high c E). reflexivity.
Qed.

(** U+00A0 is trimmed and U+00E9 is upper-cased. *)
Example trim_and_upper_beyond_ascii :
  JS.toUpperCase JS.latin1_upper (JS.trim [160; 97; 233; 32; 160]%N)
  = [65; 201]%N.
Proof. reflexivity. Qed.

(** ** The join dialog *)

Section JoinDialog.
Variable upper_of : N -> list N.

(** The dialog's answer depends on the entered code through the guard
    and the key only. *)
Lemma handleSubmit_same_key (user : option uuid) (x y : JS.str)
    (new_id : uuid) (now : timestamptz) (s : Store) :
  JS.truthy (JS.trim x) = JS.truthy (JS.trim y) ->
  JoinApartmentDialog.lookup_key upper_of x
  = JoinApartmentDialog.lookup_key upper_of y ->
  JoinApartmentDialog.handleSubmit upper_of user x new_id now s
  = JoinApartmentDialog.handleSubmit upper_of user y new_id now s.
Proof.
  intros Hguard Hkey.
  unfold JoinApartmentDialog.handleSubmit,
    JoinApartmentDialog.find_apartment.
  now rewrite Hguard, Hkey.
Qed.

(** The lookup on [apartments] fails, whatever is asked for. *)
Lemma find_apartment_fails (s : Store) (user : option uuid)
    (apartmentCode : JS.str) :
  JoinApartmentDialog.find_apartment upper_of s user apartmentCode = None.
Proof.
  unfold JoinApartmentDialog.find_apartment. now rewrite select_raises.
Qed.

Lemma handleSubmit_cases (user : option uuid) (typed : JS.str)
    (new_id : uuid) (now : timestamptz) (s : Store) :
  JoinApartmentDialog.handleSubmit upper_of user typed new_id now s
  = (s,
     match user with
     | None => JoinApartmentDialog.Ignored
     | Some _ =>
         if JS.truthy (JS.trim typed) then JoinApartmentDialog.NotFound
         else JoinApartmentDialog.Ignored
     end).
Proof.
  unfold JoinApartmentDialog.handleSubmit.
  destruct user as [uid|]; [|reflexivity].
  destruct (JS.truthy (JS.trim typed)); [|reflexivity].
  cbn [negb]. now rewrite find_apartment_fails.
Qed.

Hypothesis table : JS.case_table upper_of.

Lemma lookup_key_idem (typed : JS.str) :
  JoinApartmentDialog.lookup_key upper_of
    (JoinApartmentDialog.lookup_key upper_of typed)
  = JoinApartmentDialog.lookup_key upper_of typed.
Proof.
  unfold JoinApartmentDialog.lookup_key.
  now rewrite (trim_toUpperCase _ table), trim_idem,
    (toUpperCase_idem _ table).
Qed.

Lemma lookup_key_onChange (typed : JS.str) :
  JoinApartmentDialog.lookup_key upper_of
    (JoinApartmentDialog.onChange upper_of typed)
  = JoinApartmentDialog.lookup_key upper_of typed.
Proof.
  unfold JoinApartmentDialog.lookup_key, JoinApartmentDialog.onChange.
  now rewrite (trim_toUpperCase _ table), (toUpperCase_idem _ table).
Qed.

Lemma guard_lookup_key (typed : JS.str) :
  JS.truthy (JS.trim (JoinApartmentDialog.lookup_key upper_of typed))
  = JS.truthy (JS.trim typed).
Proof.
  unfold JoinApartmentDialog.lookup_key.
  now rewrite (trim_toUpperCase _ table), trim_idem,
    (toUpperCase_truthy _ table).
Qed.

Lemma guard_onChange (typed : JS.str) :
  JS.truthy (JS.trim (JoinApartmentDialog.onChange upper_of typed))
  = JS.truthy (JS.trim typed).
Proof.
  unfold JoinApartmentDialog.onChange.
  now rewrite (trim_toUpperCase _ table), (toUpperCase_truthy _ table).
Qed.
End JoinDialog.

(** The rows of [apartments] that carry the code of the stored row [a]
    are [a] alone: the column is UNIQUE. *)
Lemma code_is_unique (s : Store) (a : Apartment) (key : JS.str) :
  store_ok s = true -> In a (apartments s) ->
  JS.text key = apt_code a ->
  filter (JoinApartmentDialog.code_is key) (apartments s) = [a].
Proof.
  intros Hok Ha Hkey.
  unfold store_ok, apartments_ok in Hok. split_andb.
  rewrite <- (unique_filter String.eqb apt_code String.eqb_eq
                (fun _ => true) (apartments s) a)
    by (assumption || reflexivity).
  apply filter_ext. intros x. unfold JoinApartmentDialog.code_is.
  now rewrite Hkey, andb_true_r.
Qed.

(** ** C4 *)

(** C4 does not hold of the join dialog on the database as migrated.
    When the entered code is that of a stored apartment and the user
    already has a membership row in it, [handleSubmit] does not report
    [AlreadyMember]: its lookup on [apartments] stops with 42P17, which
    the dialog takes for an unknown code, and it reports [NotFound], as
    it does for a code no apartment carries.  No row is inserted. *)
Theorem join_by_member_reports_not_found (upper_of : N -> list N)
    (s : Store) (u : uuid) (typed : JS.str) (a : Apartment)
    (new_id : uuid) (now : timestamptz) :
  In a (apartments s) ->
  JS.truthy (JS.trim typed) = true ->
  JS.text (JoinApartmentDialog.lookup_key upper_of typed) = apt_code a ->
  is_member s (apt_id a) u = true ->
  JoinApartmentDialog.handleSubmit upper_of (Some u) typed new_id now s
  = (s, JoinApartmentDialog.NotFound).
Proof.
  intros _ Hguard _ _. unfold JoinApartmentDialog.handleSubmit.
  rewrite Hguard. cbn [negb]. now rewrite find_apartment_fails.
Qed.

Lemma join_by_member_reports_not_found_witness :
  JoinApartmentDialog.handleSubmit JS.latin1_upper (Some Sample.X)
    (JS.of_string "AB12C3") 102%N 2000%N Sample.two_members
  = (Sample.two_members, JoinApartmentDialog.NotFound).
Proof.
  apply (join_by_member_reports_not_found JS.latin1_upper
           Sample.two_members Sample.X (JS.of_string "AB12C3")
           Sample.flat_row 102%N 2000%N);
    [now left|reflexivity|reflexivity|reflexivity].
Defined.

(** ** C10 *)



(** A code of three characters, pasted with a space on either side and
    in lower case, and one with U+00A0 and U+00E9. *)
Example pasted_with_spaces :
  JoinApartmentDialog.lookup_key JS.latin1_upper
    (JoinApartmentDialog.onChange JS.latin1_upper (JS.of_string " ab1 "))
  = JS.of_string "AB1"
  /\ JoinApartmentDialog.lookup_key JS.latin1_upper
       (JoinApartmentDialog.onChange JS.latin1_upper [160; 233; 49; 32]%N)
     = [201; 49]%N.
Proof. split; reflexivity. Qed.

(** ** What the join dialog answers *)

(** X12.  The join dialog never adds a membership.  Without a signed-in
    user, or with an entry that is empty after JavaScript's [trim]
    (U+00A0 and the other Unicode spaces count as white space), the
    submit is ignored; with any other entry the dialog reports that the
    apartment was not found, also when the code is that of a stored
    apartment.  The store is left as it was. *)
Theorem join_outcome (upper_of : N -> list N) (user : option uuid)
    (typed : JS.str) (new_id : uuid) (now : timestamptz) (s : Store) :
  JoinApartmentDialog.handleSubmit upper_of user typed new_id now s
  = (s,
     match user with
     | None => JoinApartmentDialog.Ignored
     | Some _ =>
         if JS.truthy (JS.trim typed) then JoinApartmentDialog.NotFound
         else JoinApartmentDialog.Ignored
     end).
Proof.
  unfold JoinApartmentDialog.handleSubmit.
  destruct user as [uid|]; [|reflexivity].
  destruct (JS.truthy (JS.trim typed)); [|reflexivity].
  cbn [negb]. now rewrite find_apartment_fails.
Qed.

(** [W], who is no member yet, enters the right code; and an entry of
    U+00A0 and a space. *)
Example stranger_enters_valid_code :
  JoinApartmentDialog.handleSubmit JS.latin1_upper (Some Sample.W)
    (JS.of_string "AB12C3") 102%N 2000%N Sample.two_members
  = (Sample.two_members, JoinApartmentDialog.NotFound)
  /\ JoinApartmentDialog.handleSubmit JS.latin1_upper (Some Sample.W)
       [160; 32]%N 102%N 2000%N Sample.two_members
     = (Sample.two_members, JoinApartmentDialog.Ignored).
Proof. split; reflexivity. Qed.

(** ** What the create dialog answers *)

Lemma rpc_raises (vc : variable_conflict) (rnd : nat -> Q) (fuel : nat)
    (s : Store) (user : option uuid) :
  fuel <> O ->
  CreateApartmentDialog.rpc_generate_apartment_code vc rnd fuel s user
  = Raised.
Proof.
  intros Hfuel. unfold CreateApartmentDialog.rpc_generate_apartment_code.
  rewrite select_raises. destruct fuel; [contradiction|reflexivity].
Qed.

(** X13.  The create dialog never creates an apartment.  Without a
    signed-in user or with a blank name the submit is ignored; otherwise
    the call of [generate_apartment_code] ends in an error in its first
    pass, under every setting of [variable_conflict] and for every
    sequence of draws, the dialog reports the error, and neither of its
    two INSERTs is sent.  The store is left as it was. *)
Theorem create_outcome (vc : variable_conflict) (rnd : nat -> Q)
    (fuel : nat) (user : option uuid) (apartmentName : JS.str)
    (apartment_id member_id : uuid) (now : timestamptz) (s : Store) :
  fuel <> O ->
  CreateApartmentDialog.handleSubmit vc rnd fuel user apartmentName
    apartment_id member_id now s
  = (s,
     match user with
     | None => CreateApartmentDialog.Ignored
     | Some _ =>
         if JS.truthy (JS.trim apartmentName)
         then CreateApartmentDialog.CodeError
         else CreateApartmentDialog.Ignored
     end).
Proof.
  intros Hfuel. unfold CreateApartmentDialog.handleSubmit.
  destruct user as [uid|]; [|reflexivity].
  destruct (JS.truthy (JS.trim apartmentName)); [|reflexivity].
  cbn [negb]. now rewrite rpc_raises.
Qed.

Lemma create_outcome_witness :
  CreateApartmentDialog.handleSubmit use_variable Sample.draws 1
    (Some Sample.X) (JS.of_string "Flat 5") 11%N 103%N 2000%N
    Sample.two_members
  = (Sample.two_members, CreateApartmentDialog.CodeError).
Proof.
  apply (create_outcome use_variable Sample.draws 1 (Some Sample.X)
           (JS.of_string "Flat 5") 11%N 103%N 2000%N Sample.two_members).
  discriminate.
Defined.

(** ** What the dashboard shows *)

(** X10.  The dashboard never shows a card.  Whatever the store holds
    and whoever asks, [fetchApartments] leaves the cards of the page as
    they were, ends the loading and raises the toast [Failed to load
    apartments]: its first query stops with 42P17.  So a signed-in user
    is shown [No Apartments Yet], members of apartments included, and
    fetching again changes nothing but the toasts. *)
Theorem dashboard_shows_no_apartment (s : Store) (user : option uuid)
    (st : DashboardPage.State) :
  DashboardPage.fetchApartments s user st
  = {| DashboardPage.st_apartments := DashboardPage.st_apartments st;
       DashboardPage.st_loading := false;
       DashboardPage.st_toasts :=
         DashboardPage.st_toasts st ++ ["Failed to load apartments"%string] |}
  /\ (forall u : uuid,
        DashboardPage.render (DashboardPage.mount s (Some u))
        = DashboardPage.NoApartmentsYet)
  /\ (forall (u : uuid) (s' : Store),
        DashboardPage.render
          (DashboardPage.fetchApartments s' (Some u)
             (DashboardPage.mount s (Some u)))
        = DashboardPage.NoApartmentsYet).
Proof.
  assert (Hfetch : forall s user st,
            DashboardPage.fetchApartments s user st
            = {| DashboardPage.st_apartments := DashboardPage.st_apartments st;
                 DashboardPage.st_loading := false;
                 DashboardPage.st_toasts :=
                   DashboardPage.st_toasts st
                   ++ ["Failed to load apartments"%string] |}).
  { intros s0 user0 st0.
    unfold DashboardPage.fetchApartments, DashboardPage.memberships.
    now rewrite select_raises. }
  split; [apply Hfetch|]. split.
  - intros u. unfold DashboardPage.mount. now rewrite Hfetch.
  - intros u s'. unfold DashboardPage.mount. now rewrite !Hfetch.
Qed.

(** [X] is a member of the flat of scenario A and is shown no card. *)
Example member_sees_no_card :
  is_member Sample.scenario_A Sample.flat Sample.X = true
  /\ DashboardPage.render
       (DashboardPage.mount Sample.scenario_A (Some Sample.X))
     = DashboardPage.NoApartmentsYet.
Proof. split; reflexivity. Qed.

(** ** One statement and the store *)

(** A statement without WHERE clause and RETURNING list stops with
    42P17, or is answered as a statement of the same requester that is
    no INSERT into [expenses], [expense_splits] or [settlements]. *)
Lemma exec_plain_cases (q : Request) (s : Store) :
  Postgres.exec false q s = (s, Postgres.InfiniteRecursion)
  \/ (Postgres.exec false q s
      = Postgres.answered
          (exec {| req_uid := req_uid q; req_now := req_now q;
                   req_cmd :=
                     Postgres.narrowed false s (req_uid q) (req_cmd q) |} s)
      /\ (forall r, Postgres.narrowed false s (req_uid q) (req_cmd q)
                    <> InsertExpense r)
      /\ (forall r, Postgres.narrowed false s (req_uid q) (req_cmd q)
                    <> InsertSplit r)
      /\ (forall r, Postgres.narrowed false s (req_uid q) (req_cmd q)
                    <> InsertSettlement r)).
Proof.
  destruct q as [me now c].
  destruct c; cbn [req_cmd req_uid req_now];
    first [ left; reflexivity
          | right; split; [reflexivity|]; repeat split; discriminate ].
Qed.

(** Read as the policies state, a statement that is no INSERT into
    [expenses] or [expense_splits] adds no row to either. *)
Lemma exec_ledger_shrinks (q : Request) (s : Store) :
  (forall r, req_cmd q <> InsertExpense r) ->
  (forall r, req_cmd q <> InsertSplit r) ->
  (List.length (expenses (fst (exec q s))) <= List.length (expenses s))%nat
  /\ (List.length (expense_splits (fst (exec q s)))
      <= List.length (expense_splits s))%nat.
Proof.
  destruct q as [me now c]. cbn [req_cmd]. intros Hexp Hspl.
  destruct c;
    try (exfalso; eapply Hexp; reflexivity);
    try (exfalso; eapply Hspl; reflexivity);
    try (rewrite delete_apartment_noop; split; reflexivity);
    unfold exec; cbn [req_cmd req_uid req_now];
    try (destruct (mem_uuid u (auth_users s)); [split; reflexivity|]);
    try match goal with
      | |- context [attempt s ?put ?rows] =>
          destruct (attempt_cases s put rows) as [E|(l & Hl & E & _)];
          rewrite E; [split; reflexivity|]
      | |- context [commit s ?s'] =>
          destruct (commit_cases s s') as [E|[E _]]; rewrite E;
          [split; reflexivity|]
      end;
    try (split; reflexivity).
  - (* UpdateExpense *)
    apply update_rows_length in Hl. cbn. split; [lia|reflexivity].
  - (* DeleteExpense *)
    cbn. unfold delete_rows. split; apply filter_length_le.
  - (* UpdateSplit *)
    apply update_rows_length in Hl. cbn. split; [reflexivity|lia].
  - (* DeleteSplit *)
    cbn. unfold delete_rows. split; [reflexivity|apply filter_length_le].
Qed.

(** X5.  No expense, split or settlement can be recorded.  Every INSERT
    into [expenses], [expense_splits] or [settlements] stops with 42P17,
    with or without RETURNING and whoever sends it, members included:
    their checks select from [apartment_members].  Over any sequence of
    client statements the settlements stay exactly as they were and the
    numbers of expenses and of splits do not grow. *)
Theorem ledger_cannot_be_written (s : Store) (qs : list (bool * Request)) :
  (forall reads q,
     match req_cmd q with
     | InsertExpense _ | InsertSplit _ | InsertSettlement _ =>
         Postgres.exec reads q s = (s, Postgres.InfiniteRecursion)
     | _ => True
     end)
  /\ settlements (Postgres.run s qs) = settlements s
  /\ (List.length (expenses (Postgres.run s qs))
      <= List.length (expenses s))%nat
  /\ (List.length (expense_splits (Postgres.run s qs))
      <= List.length (expense_splits s))%nat.
Proof.
  split.
  - intros reads [me now c]. cbn [req_cmd].
    destruct c; try exact I; destruct reads; reflexivity.
  - revert s. induction qs as [|[reads q] qs IH]; intros s.
    + cbn. repeat split; reflexivity.
    + cbn [Postgres.run].
      assert (Hstep :
                settlements (fst (Postgres.exec reads q s)) = settlements s
                /\ (List.length (expenses (fst (Postgres.exec reads q s)))
                    <= List.length (expenses s))%nat
                /\ (List.length
                      (expense_splits (fst (Postgres.exec reads q s)))
                    <= List.length (expense_splits s))%nat).
      { destruct reads.
        - destruct (Postgres.target (req_cmd q)) eqn:Et.
          + rewrite exec_reading by congruence.
            repeat split; reflexivity.
          + unfold Postgres.exec. rewrite Et.
            destruct q as [me now c]. destruct c; try discriminate Et.
            unfold Postgres.answered, exec.
            cbn [req_cmd req_uid req_now fst].
            destruct (mem_uuid u (auth_users s));
              [repeat split; reflexivity|].
            unfold commit.
            destruct (store_ok _); repeat split; reflexivity.
        - destruct (exec_plain_cases q s) as [E|(E & Hexp & Hspl & Hstl)].
          + rewrite E. repeat split; reflexivity.
          + rewrite E. unfold Postgres.answered. cbn [fst].
            split.
            * match goal with
              | |- settlements (fst (exec ?q' s)) = _ =>
                  destruct (exec_settlements q' s) as [H|(t & Hc & _)]
              end; [exact H|].
              cbn [req_cmd] in Hc. now apply Hstl in Hc.
            * now apply exec_ledger_shrinks. }
      destruct Hstep as (Hs & He & Hp).
      destruct (IH (fst (Postgres.exec reads q s))) as (Hs' & He' & Hp').
      split; [congruence|]. split; lia.
Qed.

(** [Y], a member, records having paid [X], with and without asking for
    the new row back. *)
Example member_cannot_settle :
  Postgres.exec false (Sample.as_user Sample.Y (InsertSettlement Sample.payback))
    Sample.scenario_A
  = (Sample.scenario_A, Postgres.InfiniteRecursion)
  /\ Postgres.exec true
       (Sample.as_user Sample.Y (InsertSettlement Sample.payback))
       Sample.scenario_A
     = (Sample.scenario_A, Postgres.InfiniteRecursion).
Proof. split; reflexivity. Qed.

(** X8.  In a store whose constraints hold, a DELETE on [expenses] with
    a WHERE clause stops with 42P17 and removes nothing.  The DELETE
    without one goes through: it removes every expense the requester
    created, in every apartment, and the splits of these expenses with
    them; every split that is left belongs to an expense that is
    left. *)
Theorem delete_expenses (me : option uuid) (now : timestamptz)
    (cond : Expense -> bool) (s : Store) :
  store_ok s = true ->
  let q := {| req_uid := me; req_now := now;
              req_cmd := DeleteExpense cond |} in
  Postgres.exec true q s = (s, Postgres.InfiniteRecursion)
  /\ snd (Postgres.exec false q s) = Postgres.Answered Done
  /\ expenses (fst (Postgres.exec false q s))
     = filter (fun e => negb (uid_is me (exp_created_by e))) (expenses s)
  /\ expense_splits (fst (Postgres.exec false q s))
     = filter
         (fun p => negb (mem_uuid (spl_expense_id p) (my_expenses s me)))
         (expense_splits s)
  /\ forall p, In p (expense_splits (fst (Postgres.exec false q s))) ->
               mem_uuid (spl_expense_id p)
                 (map exp_id (expenses (fst (Postgres.exec false q s))))
               = true.
Proof.
  intros Hok q. subst q.
  split; [apply exec_reading; discriminate|].
  rewrite exec_plain_delete_expense. unfold Postgres.answered.
  cbn [fst snd].
  destruct (exec_delete_expense me now (fun _ => true) s Hok)
    as (Hdone & Hexp & Hspl & Hfk).
  split; [now rewrite Hdone|]. split; [exact Hexp|].
  split; [exact Hspl|exact Hfk].
Qed.

Lemma delete_expenses_witness :
  Postgres.exec true
    (Sample.as_user Sample.X
       (DeleteExpense (fun e => N.eqb (exp_id e) 20)))
    Sample.scenario_A
  = (Sample.scenario_A, Postgres.InfiniteRecursion)
  /\ expenses
       (fst (Postgres.exec false
               (Sample.as_user Sample.X
                  (DeleteExpense (fun e => N.eqb (exp_id e) 20)))
               Sample.scenario_A)) = []
  /\ expense_splits
       (fst (Postgres.exec false
               (Sample.as_user Sample.X
                  (DeleteExpense (fun e => N.eqb (exp_id e) 20)))
               Sample.scenario_A)) = [].
Proof.
  destruct (delete_expenses (Some Sample.X) 2000%N
              (fun e => N.eqb (exp_id e) 20) Sample.scenario_A eq_refl)
    as (Hstop & _ & Hexp & Hspl & _).
  split; [exact Hstop|]. split.
  - etransitivity; [exact Hexp|reflexivity].
  - etransitivity; [exact Hspl|reflexivity].
Defined.





(** X16.  The code of an apartment is not needed to join it.  In a store
    whose constraints hold, an INSERT into [apartment_members] without
    RETURNING is accepted only from the user the row names, and it is
    accepted from that user whenever the row's id is new, the user has
    no row in the apartment yet and apartment and user exist: the row is
    added as it stands. *)
Theorem join_by_direct_insert (me : option uuid) (now : timestamptz)
    (r : Member) (s : Store) :
  store_ok s = true ->
  let q := {| req_uid := me; req_now := now; req_cmd := InsertMember r |} in
  (snd (Postgres.exec false q s) = Postgres.Answered Done ->
   me = Some (mem_user_id r))
  /\ (me = Some (mem_user_id r) ->
      mem_uuid (mem_id r) (map mem_id (apartment_members s)) = false ->
      is_member s (mem_apartment_id r) (mem_user_id r) = false ->
      mem_uuid (mem_apartment_id r) (map apt_id (apartments s)) = true ->
      mem_uuid (mem_user_id r) (auth_users s) = true ->
      Postgres.exec false q s
      = (set_apartment_members s (apartment_members s ++ [r]),
         Postgres.Answered Done)).
Proof.
  intros Hok q. subst q. rewrite exec_plain_insert_member. split.
  - unfold Postgres.answered, exec. cbn [req_cmd req_uid req_now snd].
    unfold insert_row. rewrite members_insert_check.
    destruct me as [u|]; cbn [uid_is].
    + destruct (N.eqb_spec u (mem_user_id r)) as [->|_]; [reflexivity|].
      cbn [attempt snd]. discriminate.
    + cbn [attempt snd]. discriminate.
  - intros -> Hid Hnew Hapt Husr.
    now rewrite (exec_insert_member now r s Hok Hid Hnew Hapt Husr).
Qed.

Lemma join_by_direct_insert_witness :
  Postgres.exec false (Sample.as_user Sample.W (InsertMember Cases.member_W))
    Sample.two_members
  = (set_apartment_members Sample.two_members
       [Sample.member_X; Sample.member_Y; Cases.member_W],
     Postgres.Answered Done).
Proof.
  destruct (join_by_direct_insert (Some Sample.W) 2000%N Cases.member_W
              Sample.two_members eq_refl) as [_ Hjoin].
  apply Hjoin; reflexivity.
Defined.

(** ** Every well-formed code can be drawn *)

Lemma numerator_range (n d : Z) :
  0 <= n -> 0 < d -> 0 <= numerator n d < 1024.
Proof.
  intros Hn Hd. unfold numerator.
  assert (0 <= (n * 2048 + d) / (2 * d)) by (apply Z.div_pos; nia).
  lia.
Qed.

Lemma letter_draw_of_spec (c : ascii) :
  is_upper c = true ->
  unit_draw (letter_draw_of c) = true
  /\ CHR (65 + scaled (letter_draw_of c) 25) = String c EmptyString
  /\ upper_char c = c.
Proof.
  destruct c as [[] [] [] [] [] [] [] []]; intros H; try discriminate H;
    (split; [vm_compute; reflexivity|split; vm_compute; reflexivity]).
Qed.

Lemma digit_draw_of_spec (c : ascii) :
  is_digit c = true ->
  unit_draw (digit_draw_of c) = true
  /\ int_text (scaled (digit_draw_of c) 9) = String c EmptyString
  /\ upper_char c = c.
Proof.
  destruct c as [[] [] [] [] [] [] [] []]; intros H; try discriminate H;
    (split; [vm_compute; reflexivity|split; vm_compute; reflexivity]).
Qed.

Lemma is_upper_offset (c : ascii) :
  is_upper c = true -> 0 <= Z.of_N (code_of c) - 65.
Proof.
  unfold is_upper. intros H. apply andb_prop in H. destruct H as [H _].
  apply N.leb_le in H. lia.
Qed.

Lemma is_digit_offset (c : ascii) :
  is_digit c = true -> 0 <= Z.of_N (code_of c) - 48.
Proof.
  unfold is_digit. intros H. apply andb_prop in H. destruct H as [H _].
  apply N.leb_le in H. lia.
Qed.

(** X15.  Every code of the shape letter, letter, digit, digit, letter,
    digit is a code the loop body can build: there are six doubles in
    [0,1), each a multiple of 1/1024 and so a value [RANDOM()] can
    return, from which the assignment, with each product rounded to a
    double before the cast, gives exactly that code. *)
Theorem every_code_can_be_drawn (code : string) :
  code_format code = true ->
  (forall n, unit_draw (draws_of code n) = true)
  /\ (forall n, exists k, 0 <= k < 1024 /\ draws_of code n = dyadic k)
  /\ candidate_code_binary64 (draws_of code) 0 = code.
Proof.
  intros Hfmt.
  destruct code as [|a [|b [|c [|d [|e [|f [|g rest]]]]]]];
    try discriminate Hfmt.
  unfold code_format in Hfmt. cbn [list_ascii_of_string] in Hfmt.
  apply andb_prop in Hfmt. destruct Hfmt as [Hfmt Hf].
  apply andb_prop in Hfmt. destruct Hfmt as [Hfmt He].
  apply andb_prop in Hfmt. destruct Hfmt as [Hfmt Hd].
  apply andb_prop in Hfmt. destruct Hfmt as [Hfmt Hc].
  apply andb_prop in Hfmt. destruct Hfmt as [Ha Hb].
  destruct (letter_draw_of_spec a Ha) as (Ra & Ca & Ua).
  destruct (letter_draw_of_spec b Hb) as (Rb & Cb & Ub).
  destruct (digit_draw_of_spec c Hc) as (Rc & Cc & Uc).
  destruct (digit_draw_of_spec d Hd) as (Rd & Cd & Ud).
  destruct (letter_draw_of_spec e He) as (Re & Ce & Ue).
  destruct (digit_draw_of_spec f Hf) as (Rf & Cf & Uf).
  split; [|split].
  - intros n. unfold draws_of. cbn [list_ascii_of_string].
    do 6 (destruct n as [|n]; [cbn [nth]; assumption|]).
    destruct n; cbn [nth]; reflexivity.
  - intros n. unfold draws_of. cbn [list_ascii_of_string].
    pose proof (is_upper_offset a Ha). pose proof (is_upper_offset b Hb).
    pose proof (is_digit_offset c Hc). pose proof (is_digit_offset d Hd).
    pose proof (is_upper_offset e He). pose proof (is_digit_offset f Hf).
    do 6 (destruct n as [|n];
          [cbn [nth]; eexists; (split; [|reflexivity]);
           apply numerator_range; [assumption|lia]|]).
    exists 0. split; [lia|]. destruct n; reflexivity.
  - unfold candidate_code_binary64, draws_of.
    cbn [list_ascii_of_string nth Nat.add].
    rewrite Ca, Cb, Cc, Cd, Ce, Cf.
    unfold UPPER. cbn [append toUpperCase].
    now rewrite Ua, Ub, Uc, Ud, Ue, Uf.
Qed.

Lemma every_code_can_be_drawn_witness :
  candidate_code_binary64 (draws_of "QZ07K9") 0 = "QZ07K9"%string.
Proof.
  apply (every_code_can_be_drawn "QZ07K9"). reflexivity.
Defined.
